(** * dba_utils: a shallow embedding of [notebooks/dba_utils.py]

    The five utilities of the module are embedded as functions over a
    small model of the Python and pandas values they inspect:

    - [fix_column_names]            (normalize_column_names)
    - [recode_to_categorical]       (recode_categorical_column)
    - [better_describe]             (describe_with_shape_stats)
    - [informative_columns]         (classify_columns_by_information)
    - [drop_no_information_columns] (drop_uninformative_columns)

    Python strings are sequences of Unicode code points, floats are
    IEEE 754 binary64 values ([spec_float]), exceptions are an error
    result, and [print] is an explicit output component. *)

From Stdlib Require Import ZArith NArith QArith Lia SpecFloat.
From Stdlib Require Import Ascii String.
From stdpp Require Import base list.

Local Open Scope N_scope.

(** ** Python values *)

(** A [str] is a sequence of code points. *)
Abbreviation pystr := (list N).

(** Code points of an ASCII literal. *)
Fixpoint str (s : String.string) : pystr :=
  match s with
  | String.EmptyString => []
  | String.String a r => Ascii.N_of_ascii a :: str r
  end.
Arguments str s%_string.

(** Scalars stored in cells, used as dict keys, or as labels. *)
Inductive value :=
| VInt (z : Z)
| VStr (s : pystr).

Global Instance value_eq_dec : EqDecision value.
Proof. solve_decision. Defined.

(** One column of a DataFrame: its label, whether its dtype is a
    sub-dtype of [np.number], and its cells ([None] is a missing entry:
    NaN, None or NaT). *)
Record Column := mkColumn {
  cname : pystr;
  numeric : bool;
  cells : list (option value)
}.

Abbreviation DataFrame := (list Column).

(** The objects the functions may be handed. *)
Inductive pyobj :=
| PyNone
| PyInt (z : Z)
| PyStr (s : pystr)
| PyList (l : list value)
| PyTuple (l : list value)
| PySet (l : list value)
| PyDict (d : list (value * value))
| PyIndex (labels : list pystr)
| PySeries (s : list (option value))
| PyDataFrame (df : DataFrame).

Inductive exn := TypeError | AttributeError | KeyError | ValueError.

Inductive result (A : Type) :=
| Ok (a : A)
| Raise (e : exn).
Arguments Ok {A} a.
Arguments Raise {A} e.

Definition bind {A B} (r : result A) (k : A -> result B) : result B :=
  match r with
  | Ok a => k a
  | Raise e => Raise e
  end.

Notation "x <- r ;; k" := (bind r (fun x => k))
  (at level 100, r at next level, right associativity).

(** [df.columns] *)
Definition columns_of (df : DataFrame) : list pystr := map cname df.

(** ** String primitives *)

Module Str.

(** [str.isspace] on one code point (CPython's [_PyUnicode_IsWhitespace]). *)
Definition isspace (c : N) : bool :=
  ((9 <=? c) && (c <=? 13)) || ((28 <=? c) && (c <=? 32))
  || (c =? 133) || (c =? 160) || (c =? 5760)
  || ((8192 <=? c) && (c <=? 8202))
  || (c =? 8232) || (c =? 8233) || (c =? 8239) || (c =? 8287) || (c =? 12288).

Fixpoint lstrip (s : pystr) : pystr :=
  match s with
  | [] => []
  | c :: r => if isspace c then lstrip r else s
  end.

Definition rstrip (s : pystr) : pystr := rev (lstrip (rev s)).

(** [s.strip()] *)
Definition strip (s : pystr) : pystr := rstrip (lstrip s).

Definition is_ascii_upper (c : N) : bool := (65 <=? c) && (c <=? 90).

(** Lower case of a Latin-1 code point: A-Z, and U+00C0..U+00DE
    without the multiplication sign U+00D7, move up by 32. *)
Definition lower_latin1 (c : N) : N :=
  if is_ascii_upper c then c + 32
  else if (192 <=? c) && (c <=? 222) && negb (c =? 215) then c + 32
  else c.

Section Lower.
(** The lower-case expansion of a code point beyond Latin-1, from the
    interpreter's Unicode tables; it is handed the text before and
    after the code point, which the final-sigma rule reads. *)
Variable unicode_lower : pystr -> N -> pystr -> pystr.

Definition lower_at (before : pystr) (c : N) (after : pystr) : pystr :=
  if c <? 256 then [lower_latin1 c] else unicode_lower before c after.

Fixpoint lower_from (before s : pystr) : pystr :=
  match s with
  | [] => []
  | c :: r => lower_at before c r ++ lower_from (before ++ [c]) r
  end.

(** [s.lower()] *)
Definition lower (s : pystr) : pystr := lower_from [] s.
End Lower.

Fixpoint startswith (pat s : pystr) : bool :=
  match pat, s with
  | [], _ => true
  | _ :: _, [] => false
  | p :: pat', c :: s' => (p =? c) && startswith pat' s'
  end.

(** Left-to-right scan for non-overlapping occurrences of a non-empty
    [pat]; [skip] counts the code points of a match still to be passed. *)
Fixpoint replace_from (pat rep : pystr) (skip : nat) (s : pystr) : pystr :=
  match s with
  | [] => []
  | c :: r =>
      match skip with
      | S k => replace_from pat rep k r
      | O =>
          if startswith pat s
          then rep ++ replace_from pat rep (length pat - 1) r
          else c :: replace_from pat rep 0 r
      end
  end.

(** [s.replace(pat, rep)], literal, as [Index.str.replace] does for a
    one-character pattern in every pandas version and for any pattern
    since regex=False became the default; an empty [pat] matches
    before every code point and at the end. *)
Definition replace (pat rep s : pystr) : pystr :=
  match pat with
  | [] => rep ++ flat_map (fun c => c :: rep) s
  | _ :: _ => replace_from pat rep 0 s
  end.

Definition is_lower_alnum_ (c : N) : bool :=
  ((97 <=? c) && (c <=? 122)) || ((48 <=? c) && (c <=? 57)) || (c =? 95).

(** Membership in the class [[a-zA-Z0-9_]]. *)
Definition in_class (c : N) : bool :=
  ((97 <=? c) && (c <=? 122)) || ((65 <=? c) && (c <=? 90))
  || ((48 <=? c) && (c <=? 57)) || (c =? 95).

(** [re.sub(r'[^a-zA-Z0-9_]', '', s)] *)
Definition remove_outside_class (s : pystr) : pystr :=
  List.filter in_class s.

End Str.

(** ** fix_column_names *)

(** The default [character_map], in insertion order:
    [{' ':'_', 'ä':'ae', 'ö':'oe', 'ü':'ue', 'ß':'ss'}]. *)
Definition default_character_map : list (pystr * pystr) :=
  [ ([32], str "_"); ([228], str "ae"); ([246], str "oe");
    ([252], str "ue"); ([223], str "ss") ].

Section FixColumnNames.
Variable unicode_lower : pystr -> N -> pystr -> pystr.

(** The loop over [character_map.items()]. *)
Definition apply_character_map
    (character_map : list (pystr * pystr)) (columns : list pystr)
  : list pystr :=
  fold_left
    (fun columns item => map (Str.replace (fst item) (snd item)) columns)
    character_map columns.

Definition fix_column_names
    (df : pyobj) (character_map : list (pystr * pystr))
  : result (list pystr) :=
  columns <- match df with
             | PyDataFrame t => Ok (columns_of t)
             | PyIndex labels => Ok labels
             | _ => Raise TypeError
             end ;;
  let columns := map (fun s => Str.lower unicode_lower (Str.strip s)) columns in
  let columns := apply_character_map character_map columns in
  let columns := map Str.remove_outside_class columns in
  Ok columns.
End FixColumnNames.

(** ** recode_to_categorical *)

(** A [pd.Categorical]: a cell outside the categories is missing. *)
Record Categorical := mkCategorical {
  cat_values : list (option value);
  categories : list value;
  ordered : bool
}.

(** [d.get(k)] on a dict kept in insertion order. *)
Fixpoint dict_get (d : list (value * value)) (k : value) : option value :=
  match d with
  | [] => None
  | (k', v) :: d' => if decide (k' = k) then Some v else dict_get d' k
  end.

(** [list(d.values())] *)
Definition dict_values (d : list (value * value)) : list value := map snd d.

(** [column.replace(recode)]: a cell equal to a key takes the mapped
    value, every other cell is left as it is. *)
Definition series_replace
    (s : list (option value)) (d : list (value * value))
  : list (option value) :=
  map (fun cell =>
         match cell with
         | Some v => Some (default v (dict_get d v))
         | None => None
         end) s.

(** [pd.Categorical(values, categories=cats, ordered=ordered)] *)
Definition pd_Categorical
    (values : list (option value)) (cats : list value) (ordered : bool)
  : result Categorical :=
  if decide (NoDup cats) then
    Ok {| cat_values :=
            map (fun cell =>
                   match cell with
                   | Some v => if decide (v ∈ cats) then Some v else None
                   | None => None
                   end) values;
          categories := cats;
          ordered := ordered |}
  else Raise ValueError.

(** The keyword [ordered] is [None] when the caller leaves it out. *)
Definition recode_to_categorical
    (column recode : pyobj) (ordered : option bool) : result Categorical :=
  let ordered := default true ordered in
  match column with
  | PySeries s =>
      match recode with
      | PyDict d => pd_Categorical (series_replace s d) (dict_values d) ordered
      | _ => Raise TypeError
      end
  | _ => Raise TypeError
  end.

(** ** better_describe *)

Module Float.

(** The binary64 constants of the normality test. *)
Definition one : spec_float := S754_finite false 4503599627370496 (-52).
Definition half : spec_float := S754_finite false 4503599627370496 (-53).

(** A float object always holds a well-formed binary64 value. *)
Definition valid (x : spec_float) : bool := valid_binary 53 1024 x.

(** [x < y] and [x > y]; both are false as soon as one side is NaN. *)
Definition lt (x y : spec_float) : bool := SFltb x y.
Definition gt (x y : spec_float) : bool :=
  match SFcompare x y with
  | Some Gt => true
  | _ => false
  end.

(** The number a float stands for. *)
Inductive xreal :=
| NegInf
| Finite (q : Q)
| PosInf.

Definition finite_value (s : bool) (m : positive) (e : Z) : Q :=
  let n := if s then Zneg m else Zpos m in
  match e with
  | Z0 => n # 1
  | Zpos p => (n * 2 ^ Zpos p) # 1
  | Zneg p => n # (2 ^ p)
  end.

Definition to_xreal (x : spec_float) : option xreal :=
  match x with
  | S754_nan => None
  | S754_zero _ => Some (Finite 0)
  | S754_infinity s => Some (if s then NegInf else PosInf)
  | S754_finite s m e => Some (Finite (finite_value s m e))
  end.

(** A finite value in units of [2^-1074], the weight of the last bit of
    the smallest binary64 exponent. *)
Definition scaled (s : bool) (m : positive) (e : Z) : Z :=
  (if s then Zneg m else Zpos m) * 2 ^ (e + 1074).

Definition scaled_of (x : spec_float) : option Z :=
  match x with
  | S754_zero _ => Some 0%Z
  | S754_finite s m e => Some (scaled s m e)
  | _ => None
  end.

(** [2^1074] as a denominator. *)
Definition ulp_den : positive := 2 ^ 1074.

End Float.

(** [(kurtosis < 1) & (kurtosis > -1) & (skew < 0.5) & (skew > -0.5)] *)
Definition normal_flag (kurtosis skew : spec_float) : bool :=
  Float.lt kurtosis Float.one && Float.gt kurtosis (SFopp Float.one)
  && Float.lt skew Float.half && Float.gt skew (SFopp Float.half).

(** Label lookup shared by [df[labels]] and [df.drop]. *)
Definition has_label (df : DataFrame) (l : value) : bool :=
  bool_decide (l ∈ map VStr (columns_of df)).

(** [df[labels]] for a list of labels. *)
Definition getitem_columns (df : DataFrame) (labels : list value)
  : result DataFrame :=
  if forallb (has_label df) labels then
    Ok (flat_map (fun l => filter (fun c => VStr (cname c) = l) df) labels)
  else Raise KeyError.

(** [df.select_dtypes(include=[np.number]).columns.tolist()] *)
Definition select_numeric (df : DataFrame) : list value :=
  map VStr (columns_of (filter (fun c => numeric c = true) df)).

Section Describe.
(** The estimators of pandas: one row of [describe()] (count, mean,
    std, min, quartiles, max), the sample skewness and the sample
    excess kurtosis of a column. *)
Variable Stats : Type.
Variable describe : list (option value) -> Stats.
Variable skew kurtosis : list (option value) -> spec_float.

(** What pandas makes of a selection in which a column is not numeric
    or a label occurs twice, as far as [desc["kurtosis"]] is set: an
    exception, or the rows that are left with their statistics,
    skewness and kurtosis. It depends on the dtypes and on the version
    of pandas: [describe()] leaves columns out, [skew()] raises or
    leaves columns out, and the assignment aligns the two by label. *)
Variable describe_irregular :
  DataFrame -> result (list (pystr * (Stats * spec_float * spec_float))).

(** One column of the returned frame. *)
Record Description := mkDescription {
  d_stats : Stats;
  d_skew : spec_float;
  d_kurtosis : spec_float;
  d_normal : bool
}.

Definition describe_column (c : Column) : pystr * Description :=
  let sk := skew (cells c) in
  let ku := kurtosis (cells c) in
  (cname c,
   {| d_stats := describe (cells c);
      d_skew := sk;
      d_kurtosis := ku;
      d_normal := normal_flag ku sk |}).

(** [desc["normal"] = ...] on a row that pandas has filled in. *)
Definition flag_row (row : pystr * (Stats * spec_float * spec_float))
  : pystr * Description :=
  let '(name, (stats, sk, ku)) := row in
  (name,
   {| d_stats := stats;
      d_skew := sk;
      d_kurtosis := ku;
      d_normal := normal_flag ku sk |}).

(** A selection of numeric columns under pairwise distinct labels. *)
Definition regular (sub : DataFrame) : bool :=
  forallb numeric sub && bool_decide (NoDup (columns_of sub)).

(** Lines 78 to 83 on the selection [df[columns]]. [describe()]
    refuses a frame without columns with a [ValueError]. *)
Definition describe_selection (sub : DataFrame)
  : result (list (pystr * Description)) :=
  match sub with
  | [] => Raise ValueError
  | _ :: _ =>
      if regular sub then Ok (map describe_column sub)
      else rows <- describe_irregular sub ;; Ok (map flag_row rows)
  end.

(** [columns] is [PyNone] when the caller leaves it out. Only a
    DataFrame has the attribute [select_dtypes]. *)
Definition better_describe (df columns : pyobj)
  : result (list (pystr * Description)) :=
  columns <- match columns with
             | PyNone =>
                 match df with
                 | PyDataFrame t => Ok (PyList (select_numeric t))
                 | _ => Raise AttributeError
                 end
             | _ => Ok columns
             end ;;
  t <- match df with
       | PyDataFrame t => Ok t
       | _ => Raise TypeError
       end ;;
  labels <- match columns with
            | PyList l => Ok l
            | PyIndex l => Ok (map VStr l)
            | _ => Raise TypeError
            end ;;
  sub <- getitem_columns t labels ;;
  describe_selection sub.
End Describe.

Arguments mkDescription {Stats}.
Arguments d_stats {Stats}.
Arguments d_skew {Stats}.
Arguments d_kurtosis {Stats}.
Arguments d_normal {Stats}.

(** ** informative_columns *)

(** [Series.nunique()]: the number of distinct entries, missing ones
    left out. *)
Definition nunique (c : Column) : nat :=
  length (remove_dups (omap id (cells c))).

(** [df.nunique()], one count per column, in column order. *)
Definition df_nunique (df : DataFrame) : list nat := map nunique df.

(** [index[mask]] with a boolean mask. *)
Fixpoint index_mask (labels : list pystr) (mask : list bool) : list pystr :=
  match labels, mask with
  | l :: labels', b :: mask' =>
      if b then l :: index_mask labels' mask' else index_mask labels' mask'
  | _, _ => []
  end.

Definition informative_columns (df : DataFrame)
  : list pystr * list pystr * list pystr :=
  let no_information :=
    index_mask (columns_of df) (map (fun n => Nat.eqb n 0) (df_nunique df)) in
  let always_the_same :=
    index_mask (columns_of df) (map (fun n => Nat.eqb n 1) (df_nunique df)) in
  let contains_information :=
    index_mask (columns_of df) (map (fun n => Nat.ltb 1 n) (df_nunique df)) in
  (no_information, always_the_same, contains_information).

(** ** drop_no_information_columns *)

(** [bool(o)]; the pandas containers refuse to be tested. *)
Definition truthy (o : pyobj) : result bool :=
  match o with
  | PyNone => Ok false
  | PyInt z => Ok (negb (Z.eqb z 0))
  | PyStr s => Ok (negb (bool_decide (s = [])))
  | PyList l | PyTuple l | PySet l => Ok (negb (bool_decide (l = [])))
  | PyDict d => Ok (negb (bool_decide (d = [])))
  | PyIndex _ | PySeries _ | PyDataFrame _ => Raise ValueError
  end.

(** [isinstance(o, list)] *)
Definition is_list (o : pyobj) : bool :=
  match o with
  | PyList _ => true
  | _ => false
  end.

(** [a + b] *)
Definition py_add (a b : pyobj) : result pyobj :=
  match a, b with
  | PyInt x, PyInt y => Ok (PyInt (x + y))
  | PyStr x, PyStr y => Ok (PyStr (x ++ y))
  | PyList x, PyList y => Ok (PyList (x ++ y))
  | PyTuple x, PyTuple y => Ok (PyTuple (x ++ y))
  | _, _ => Raise TypeError
  end.

(** [a - b]: numbers subtract, sets take the difference, and no other
    pair of these objects supports the operator. *)
Definition py_sub (a b : pyobj) : result pyobj :=
  match a, b with
  | PyInt x, PyInt y => Ok (PyInt (x - y))
  | PySet x, PySet y => Ok (PySet (list_difference x y))
  | _, _ => Raise TypeError
  end.

(** [set(l)] of a list *)
Definition py_set (l : list value) : pyobj := PySet (remove_dups l).

(** [df.drop(columns=labels)]: every label has to name a column. *)
Definition df_drop (df : DataFrame) (labels : pyobj) : result DataFrame :=
  ls <- match labels with
        | PyList l | PyTuple l | PySet l => Ok l
        | PyIndex l => Ok (map VStr l)
        | _ => Raise TypeError
        end ;;
  if forallb (has_label df) ls then
    Ok (filter (fun c => VStr (cname c) ∉ ls) df)
  else Raise KeyError.

(** The list handed to [print] and then to [df.drop]. *)
Definition columns_to_delete (df : DataFrame) (keep drop : pyobj)
  : result pyobj :=
  let '(no_information, always_the_same, _) := informative_columns df in
  let delete := PyList (map VStr (no_information ++ always_the_same)) in
  delete <- (t <- truthy drop ;;
             if t && is_list drop then py_add delete drop else Ok delete) ;;
  delete <- (t <- truthy keep ;;
             if t && is_list keep
             then match keep with
                  | PyList k => py_sub delete (py_set k)
                  | _ => Ok delete
                  end
             else Ok delete) ;;
  Ok delete.

(** [keep] and [drop] are [PyNone] when the caller leaves them out.
    The first component is what was printed. *)
Definition drop_no_information_columns (df : DataFrame) (keep drop : pyobj)
  : list pyobj * result DataFrame :=
  match columns_to_delete df keep drop with
  | Raise e => ([], Raise e)
  | Ok delete => ([delete], df_drop df delete)
  end.

(** ** Vocabulary of the statements *)

(** Only lower-case ASCII letters, digits and underscores. *)
Definition clean (s : pystr) : Prop :=
  Forall (fun c => Str.is_lower_alnum_ c = true) s.

Definition no_ascii_upper (s : pystr) : Prop :=
  Forall (fun c => Str.is_ascii_upper c = false) s.

(** What the statements need of the Unicode tables: lowering a code
    point beyond Latin-1 never yields one of A-Z. *)
Definition lowers_properly (ul : pystr -> N -> pystr -> pystr) : Prop :=
  forall before c after, 256 <= c -> no_ascii_upper (ul before c after).

(** A table of lower-case expansions that leaves every code point as it
    is. *)
Definition identity_lower (before : pystr) (c : N) (after : pystr) : pystr :=
  [c].

(** The three lists returned by [informative_columns]. *)
Definition no_information (df : DataFrame) : list pystr :=
  (informative_columns df).1.1.
Definition always_the_same (df : DataFrame) : list pystr :=
  (informative_columns df).1.2.
Definition contains_information (df : DataFrame) : list pystr :=
  (informative_columns df).2.

(** All cells are missing. *)
Definition all_missing (c : Column) : Prop :=
  Forall (fun x => x = None) (cells c).

(** Exactly one value occurs among the cells that are present. *)
Definition single_valued (c : Column) : Prop :=
  exists v, Some v ∈ cells c /\ forall w, Some w ∈ cells c -> w = v.

(** Two lists of labels share no label. *)
Definition disjoint_labels (l1 l2 : list pystr) : Prop :=
  forall n, n ∈ l1 -> n ∈ l2 -> False.

(** A table with an all-missing, a constant and a varying column; the
    constant column has a missing entry as well. *)
Definition empty_column : Column :=
  mkColumn (str "empty") true [None; None; None].
Definition constant_column : Column :=
  mkColumn (str "const") true [Some (VInt 7); None; Some (VInt 7)].
Definition varying_column : Column :=
  mkColumn (str "vary") true [Some (VInt 1); Some (VInt 2); Some (VInt 2)].
Definition three_columns : DataFrame :=
  [empty_column; constant_column; varying_column].

(** A column of four equal values. *)
Definition ones_column : Column :=
  mkColumn (str "x") true
    [Some (VInt 1); Some (VInt 1); Some (VInt 1); Some (VInt 1)].

(** ** Vocabulary of the statements on the normality flag *)

(** Both values are numbers, kurtosis strictly between -1 and 1 and
    skewness strictly between -1/2 and 1/2. *)
Definition in_open_intervals (kurtosis skew : spec_float) : Prop :=
  exists qk qs,
    Float.to_xreal kurtosis = Some (Float.Finite qk) /\
    Float.to_xreal skew = Some (Float.Finite qs) /\
    (- (1) < qk)%Q /\ (qk < 1)%Q /\
    (- (1 # 2) < qs)%Q /\ (qs < 1 # 2)%Q.

(** The labels that [better_describe] selects by: the numeric columns
    when the column list is left out, the list or Index otherwise. *)
Definition requested_labels (t : DataFrame) (columns : pyobj)
  : option (list value) :=
  match columns with
  | PyNone => Some (select_numeric t)
  | PyList l => Some l
  | PyIndex l => Some (map VStr l)
  | _ => None
  end.

(** The entries of a column that are not missing. *)
Definition present (cells : list (option value)) : list value :=
  omap id cells.

(** Every entry that is not missing is the integer [z]. *)
Definition constant_ints (cells : list (option value)) (z : Z) : Prop :=
  Forall (fun cell => cell = None \/ cell = Some (VInt z)) cells.

(** What the statements need of [DataFrame.skew] and
    [DataFrame.kurtosis] (pandas' [nanskew] and [nankurt]): they return
    binary64 values; skewness is NaN below three entries and kurtosis
    below four; and on a column whose entries are one integer, small
    enough for every partial sum to be exact, the second moment is
    zero and both return 0.0 instead of dividing by it. *)
Definition pandas_estimators
    (skew kurtosis : list (option value) -> spec_float) : Prop :=
  (forall cells,
      Float.valid (skew cells) = true /\
      Float.valid (kurtosis cells) = true) /\
  (forall cells, (length (present cells) < 3)%nat -> skew cells = S754_nan) /\
  (forall cells,
      (length (present cells) < 4)%nat -> kurtosis cells = S754_nan) /\
  (forall cells z,
      constant_ints cells z ->
      (Z.abs z * Z.of_nat (length (present cells)) <= 2 ^ 53)%Z ->
      ((3 <= length (present cells))%nat -> skew cells = S754_zero false) /\
      ((4 <= length (present cells))%nat ->
       kurtosis cells = S754_zero false)).

Definition all_equal (l : list value) : bool :=
  match l with
  | [] => true
  | v :: r => forallb (fun w => bool_decide (w = v)) r
  end.

(** An instance of [pandas_estimators]: as pandas on the columns above,
    fixed values on the others (a skewness on the bound 0.5). *)
Definition reference_skew (cells : list (option value)) : spec_float :=
  if (length (present cells) <? 3)%nat then S754_nan
  else if all_equal (present cells) then S754_zero false
  else Float.half.

Definition reference_kurtosis (cells : list (option value)) : spec_float :=
  if (length (present cells) <? 4)%nat then S754_nan
  else S754_zero false.

(** An oracle for irregular selections that always raises. *)
Definition irregular_raises {Stats : Type} (sub : DataFrame)
  : result (list (pystr * (Stats * spec_float * spec_float))) :=
  Raise TypeError.

(** Four entries that vary. *)
Definition spread_column : Column :=
  mkColumn (str "y") true
    [Some (VInt 1); Some (VInt 2); Some (VInt 3); Some (VInt 10)].

(** Three entries only. *)
Definition short_column : Column :=
  mkColumn (str "z") true [Some (VInt 1); Some (VInt 2); Some (VInt 4)].

Definition flag_table : DataFrame :=
  [ones_column; spread_column; short_column].

(** ** Vocabulary of the further statements *)

Definition is_frame_or_index (o : pyobj) : bool :=
  match o with
  | PyDataFrame _ | PyIndex _ => true
  | _ => false
  end.

Definition is_series (o : pyobj) : bool :=
  match o with
  | PySeries _ => true
  | _ => false
  end.

Definition is_dict (o : pyobj) : bool :=
  match o with
  | PyDict _ => true
  | _ => false
  end.

Definition is_pandas_container (o : pyobj) : bool :=
  match o with
  | PyIndex _ | PySeries _ | PyDataFrame _ => true
  | _ => false
  end.

(** An argument that [drop_no_information_columns] takes for absent:
    falsy, or not a list. The pandas containers are not among them. *)
Definition ignored_argument (o : pyobj) : bool :=
  match o with
  | PyNone | PyInt _ | PyStr _ | PyTuple _ | PySet _ | PyDict _ => true
  | PyList [] => true
  | _ => false
  end.

(** Only code points that [str.strip] removes. *)
Definition blank (s : pystr) : Prop :=
  Forall (fun c => Str.isspace c = true) s.

(** What [fix_column_names] does to one name. *)
Definition normalize_name
    (ul : pystr -> N -> pystr -> pystr) (cm : list (pystr * pystr))
    (s : pystr) : pystr :=
  Str.remove_outside_class
    (fold_left (fun s item => Str.replace (fst item) (snd item) s) cm
       (Str.lower ul (Str.strip s))).

(** What the default character map makes of one lower-case code point. *)
Definition transliterate (c : N) : pystr :=
  if c =? 32 then str "_"
  else if c =? 228 then str "ae"
  else if c =? 246 then str "oe"
  else if c =? 252 then str "ue"
  else if c =? 223 then str "ss"
  else [c].

(** A Latin-1 code point whose lower case is a letter a-z, a digit, an
    underscore, a space or one of the four German letters of the
    default character map. *)
Definition german (c : N) : Prop :=
  c < 256 /\
  let c' := Str.lower_latin1 c in
  Str.is_lower_alnum_ c' = true \/
  c' = 32 \/ c' = 228 \/ c' = 246 \/ c' = 252 \/ c' = 223.

(** The same label and the same values present, in any order and any
    number of copies, beside any number of missing entries. *)
Definition same_present_values (c c' : Column) : Prop :=
  cname c = cname c' /\ forall v, Some v ∈ cells c <-> Some v ∈ cells c'.

(** [three_columns] with rows reordered and repeated. *)
Definition three_columns_reordered : DataFrame :=
  [ mkColumn (str "empty") true [None; None; None; None];
    mkColumn (str "const") true [None; Some (VInt 7); Some (VInt 7); None];
    mkColumn (str "vary") true
      [Some (VInt 2); Some (VInt 1); Some (VInt 2); Some (VInt 1)] ].

(** A table of one row. *)
Definition one_row : DataFrame :=
  [ mkColumn (str "a") true [Some (VInt 3)];
    mkColumn (str "b") false [None] ].

(** A numeric and a text column. *)
Definition mixed_columns : DataFrame :=
  [ mkColumn (str "n") true [Some (VInt 1); Some (VInt 2)];
    mkColumn (str "t") false [Some (VStr (str "u")); Some (VStr (str "v"))];
    mkColumn (str "m") true [Some (VInt 5); None] ].

(** * Properties *)

(** ** fix_column_names *)

Lemma is_lower_alnum_spec c :
  Str.is_lower_alnum_ c = true <->
  97 <= c <= 122 \/ 48 <= c <= 57 \/ c = 95.
Proof. unfold Str.is_lower_alnum_.
  rewrite ?orb_true_iff, ?andb_true_iff, ?N.leb_le, ?N.eqb_eq. lia. Qed.

Lemma in_class_spec c :
  Str.in_class c = true <->
  97 <= c <= 122 \/ 65 <= c <= 90 \/ 48 <= c <= 57 \/ c = 95.
Proof. unfold Str.in_class.
  rewrite ?orb_true_iff, ?andb_true_iff, ?N.leb_le, ?N.eqb_eq. lia. Qed.

Lemma is_ascii_upper_spec c :
  Str.is_ascii_upper c = true <-> 65 <= c <= 90.
Proof. unfold Str.is_ascii_upper.
  rewrite ?andb_true_iff, ?N.leb_le. lia. Qed.

Lemma isspace_not_clean c :
  Str.is_lower_alnum_ c = true -> Str.isspace c = false.
Proof.
  rewrite is_lower_alnum_spec. intros H. apply not_true_iff_false.
  unfold Str.isspace.
  rewrite ?orb_true_iff, ?andb_true_iff, ?N.leb_le, ?N.eqb_eq. lia.
Qed.

Lemma lower_latin1_not_upper c : Str.is_ascii_upper (Str.lower_latin1 c) = false.
Proof.
  apply not_true_iff_false. rewrite is_ascii_upper_spec.
  unfold Str.lower_latin1.
  destruct (Str.is_ascii_upper c) eqn:E.
  - apply is_ascii_upper_spec in E. lia.
  - apply not_true_iff_false in E. rewrite is_ascii_upper_spec in E.
    destruct (_ && _ && _) eqn:E2.
    + rewrite ?andb_true_iff, ?N.leb_le in E2. lia.
    + lia.
Qed.

Lemma lower_latin1_clean c : Str.is_lower_alnum_ c = true -> Str.lower_latin1 c = c.
Proof.
  rewrite is_lower_alnum_spec. intros H. unfold Str.lower_latin1.
  destruct (Str.is_ascii_upper c) eqn:E.
  - apply is_ascii_upper_spec in E. lia.
  - destruct (_ && _ && _) eqn:E2; [|done].
    rewrite ?andb_true_iff, ?N.leb_le in E2. lia.
Qed.

Section LowerProps.
Variable ul : pystr -> N -> pystr -> pystr.

Lemma lower_from_no_upper before s :
  lowers_properly ul -> no_ascii_upper (Str.lower_from ul before s).
Proof.
  intros Hul. revert before.
  induction s as [|c r IH]; intros before; simpl; [constructor|].
  apply Forall_app. split; [|apply IH].
  unfold Str.lower_at. destruct (c <? 256) eqn:E.
  - repeat constructor. apply lower_latin1_not_upper.
  - apply Hul. apply N.ltb_ge in E. exact E.
Qed.

Lemma lower_from_clean before s :
  clean s -> Str.lower_from ul before s = s.
Proof.
  intros Hs. revert before.
  induction Hs as [|c r Hc Hr IH]; intros before; simpl; [done|].
  rewrite IH. unfold Str.lower_at.
  assert ((c <? 256) = true) as ->.
  { apply N.ltb_lt. apply is_lower_alnum_spec in Hc. lia. }
  simpl. by rewrite lower_latin1_clean.
Qed.
End LowerProps.

Lemma lstrip_clean s : clean s -> Str.lstrip s = s.
Proof.
  intros Hs. destruct Hs as [|c r Hc Hr]; simpl; [done|].
  by rewrite (isspace_not_clean _ Hc).
Qed.

Lemma strip_clean s : clean s -> Str.strip s = s.
Proof.
  intros Hs. unfold Str.strip, Str.rstrip.
  rewrite (lstrip_clean s Hs).
  rewrite lstrip_clean; [apply rev_involutive|].
  by apply Forall_rev.
Qed.

Lemma replace_single p rep s :
  Str.replace [p] rep s = flat_map (fun c => if p =? c then rep else [c]) s.
Proof.
  unfold Str.replace.
  induction s as [|c r IH]; simpl; [done|].
  rewrite andb_true_r. destruct (p =? c); simpl; by rewrite IH.
Qed.

Lemma replace_single_Forall (P : N -> Prop) p rep s :
  Forall P rep -> Forall P s -> Forall P (Str.replace [p] rep s).
Proof.
  intros Hrep Hs. rewrite replace_single.
  induction Hs as [|c r Hc Hr IH]; simpl; [constructor|].
  apply Forall_app. split; [|exact IH].
  destruct (p =? c); [exact Hrep|by constructor].
Qed.

Lemma replace_single_absent p rep s :
  Forall (fun c => c <> p) s -> Str.replace [p] rep s = s.
Proof.
  intros Hs. rewrite replace_single.
  induction Hs as [|c r Hc Hr IH]; simpl; [done|].
  rewrite IH. destruct (N.eqb_spec p c); [congruence|done].
Qed.

Lemma default_map_no_upper columns :
  Forall no_ascii_upper columns ->
  Forall no_ascii_upper (apply_character_map default_character_map columns).
Proof.
  intros H. unfold apply_character_map, default_character_map. simpl.
  repeat (apply Forall_fmap; eapply Forall_impl; [|
    intros s Hs; apply replace_single_Forall; [|exact Hs];
    by repeat constructor ]).
  exact H.
Qed.

Section NormalizeProps.
Variable ul : pystr -> N -> pystr -> pystr.

Lemma remove_outside_class_clean s :
  no_ascii_upper s -> clean (Str.remove_outside_class s).
Proof.
  intros Hs. unfold clean, Str.remove_outside_class. apply Forall_forall.
  intros c Hc. apply list_elem_of_In, filter_In in Hc as [Hin Hcl].
  apply list_elem_of_In in Hin.
  eapply Forall_forall in Hs; [|exact Hin].
  apply not_true_iff_false in Hs. rewrite is_ascii_upper_spec in Hs.
  apply in_class_spec in Hcl. apply is_lower_alnum_spec. lia.
Qed.

Lemma remove_outside_class_fixed s :
  clean s -> Str.remove_outside_class s = s.
Proof.
  intros Hs. unfold Str.remove_outside_class.
  induction Hs as [|c r Hc Hr IH]; simpl; [done|].
  rewrite IH.
  assert (Str.in_class c = true) as ->; [|done].
  apply in_class_spec. apply is_lower_alnum_spec in Hc. lia.
Qed.

Lemma default_map_fixed columns :
  Forall clean columns ->
  apply_character_map default_character_map columns = columns.
Proof.
  intros H. unfold apply_character_map, default_character_map. simpl.
  assert (forall p rep, ~ (Str.is_lower_alnum_ p = true) ->
            map (Str.replace [p] rep) columns = columns) as Hid.
  { intros p rep Hp. induction H as [|s r Hs Hr IH]; simpl; [done|].
    rewrite IH. f_equal. apply replace_single_absent.
    eapply Forall_impl; [exact Hs|]. simpl. intros c Hc ->. by apply Hp. }
  rewrite !Hid; [done|..]; rewrite is_lower_alnum_spec; lia.
Qed.

Lemma fix_column_names_index labels :
  fix_column_names ul (PyIndex labels) default_character_map
  = Ok (map Str.remove_outside_class
          (apply_character_map default_character_map
             (map (fun s => Str.lower ul (Str.strip s)) labels))).
Proof. reflexivity. Qed.

Lemma fix_column_names_clean_fixed labels :
  Forall clean labels ->
  fix_column_names ul (PyIndex labels) default_character_map = Ok labels.
Proof.
  intros H. rewrite fix_column_names_index. f_equal.
  assert (map (fun s => Str.lower ul (Str.strip s)) labels = labels) as ->.
  { induction H as [|s r Hs Hr IH]; simpl; [done|].
    rewrite IH, (strip_clean s Hs). unfold Str.lower.
    by rewrite lower_from_clean. }
  rewrite (default_map_fixed _ H).
  induction H as [|s r Hs Hr IH]; simpl; [done|].
  by rewrite IH, remove_outside_class_fixed.
Qed.

Lemma normalized_clean columns :
  lowers_properly ul ->
  Forall clean
    (map Str.remove_outside_class
       (apply_character_map default_character_map
          (map (fun s => Str.lower ul (Str.strip s)) columns))).
Proof.
  intros Hul. apply Forall_fmap.
  eapply Forall_impl; [|intros s Hs; apply remove_outside_class_clean; exact Hs].
  apply default_map_no_upper. apply Forall_fmap, Forall_forall.
  intros s _. simpl. by apply lower_from_no_upper.
Qed.

(** C6. With the default character map every name that
    [fix_column_names] returns consists of lower-case ASCII letters,
    digits and underscores only, and a sequence of names is always
    accepted and mapped name by name. *)
Theorem fix_column_names_output_alphabet :
  lowers_properly ul ->
  (forall df out,
      fix_column_names ul df default_character_map = Ok out ->
      Forall clean out) /\
  (forall labels, exists out,
      fix_column_names ul (PyIndex labels) default_character_map = Ok out /\
      length out = length labels).
Proof.
  intros Hul. split.
  - intros df out. unfold fix_column_names.
    destruct df; simpl; try discriminate;
      intros [= <-]; by apply normalized_clean.
  - intros labels. eexists. split; [apply fix_column_names_index|].
    rewrite length_map. unfold apply_character_map. simpl.
    by rewrite !length_map.
Qed.

(** C7. With the default character map [fix_column_names] is
    idempotent: a second application to its own output returns that
    output unchanged. *)
Theorem fix_column_names_idempotent :
  lowers_properly ul ->
  forall labels, exists out,
    fix_column_names ul (PyIndex labels) default_character_map = Ok out /\
    fix_column_names ul (PyIndex out) default_character_map = Ok out.
Proof.
  intros Hul labels. eexists. split; [apply fix_column_names_index|].
  apply fix_column_names_clean_fixed. by apply normalized_clean.
Qed.
End NormalizeProps.

Lemma identity_lower_properly : lowers_properly identity_lower.
Proof.
  intros before c after Hc. repeat constructor.
  apply not_true_iff_false. rewrite is_ascii_upper_spec. lia.
Defined.

Lemma fix_column_names_output_alphabet_witness :
  Forall clean [str "a_b"; str "x1"].
Proof.
  apply (proj1 (fix_column_names_output_alphabet
                  identity_lower identity_lower_properly)
           (PyIndex [str " A b"; str "X-1"])).
  reflexivity.
Defined.

Lemma fix_column_names_idempotent_witness :
  exists out,
    fix_column_names identity_lower (PyIndex [str " A b"; str "X-1"])
      default_character_map = Ok out /\
    fix_column_names identity_lower (PyIndex out) default_character_map
    = Ok out.
Proof.
  apply (fix_column_names_idempotent identity_lower identity_lower_properly).
Defined.

(** C8. On ["  Straße "; "Wert (EUR)"] the steps strip, lower,
    substitution and removal, in this order, give
    ["strasse"; "wert_eur"], whatever the tables say beyond Latin-1. *)
Theorem fix_column_names_strasse (ul : pystr -> N -> pystr -> pystr) :
  let names := [str "  Stra" ++ [223] ++ str "e "; str "Wert (EUR)"] in
  let stripped := map Str.strip names in
  let lowered := map (Str.lower ul) stripped in
  let substituted := apply_character_map default_character_map lowered in
  stripped = [str "Stra" ++ [223] ++ str "e"; str "Wert (EUR)"] /\
  lowered = [str "stra" ++ [223] ++ str "e"; str "wert (eur)"] /\
  substituted = [str "strasse"; str "wert_(eur)"] /\
  map Str.remove_outside_class substituted = [str "strasse"; str "wert_eur"] /\
  fix_column_names ul (PyIndex names) default_character_map
  = Ok [str "strasse"; str "wert_eur"].
Proof. repeat split; reflexivity. Qed.

(** ** recode_to_categorical *)

(** C9. Recoding the column [1, 1, 2] with [{1: "low", 2: "high"}]
    gives the values low, low, high, the categories low, high in the
    order of the mapping, and an ordered categorical when the flag is
    left out. *)
Theorem recode_low_high :
  recode_to_categorical
    (PySeries [Some (VInt 1); Some (VInt 1); Some (VInt 2)])
    (PyDict [(VInt 1, VStr (str "low")); (VInt 2, VStr (str "high"))])
    None
  = Ok {| cat_values := [Some (VStr (str "low")); Some (VStr (str "low"));
                         Some (VStr (str "high"))];
          categories := [VStr (str "low"); VStr (str "high")];
          ordered := true |}.
Proof. vm_compute. reflexivity. Qed.

(** ** Comparison of binary64 values *)

Module FloatFacts.
Import Float.
Local Open Scope Z_scope.

Lemma digits2_pos_bounds m :
  2 ^ (Zpos (digits2_pos m) - 1) <= Zpos m < 2 ^ Zpos (digits2_pos m).
Proof.
  induction m as [m IH|m IH|]; simpl digits2_pos.
  - rewrite Pos2Z.inj_succ, (Pos2Z.inj_xI m).
    replace (Z.succ (Zpos (digits2_pos m)) - 1)
      with (Z.succ (Zpos (digits2_pos m) - 1)) by lia.
    rewrite !Z.pow_succ_r by lia. revert IH.
    generalize (2 ^ (Zpos (digits2_pos m) - 1)) (2 ^ Zpos (digits2_pos m)) (Zpos m).
    intros; lia.
  - rewrite Pos2Z.inj_succ, (Pos2Z.inj_xO m).
    replace (Z.succ (Zpos (digits2_pos m)) - 1)
      with (Z.succ (Zpos (digits2_pos m) - 1)) by lia.
    rewrite !Z.pow_succ_r by lia. revert IH.
    generalize (2 ^ (Zpos (digits2_pos m) - 1)) (2 ^ Zpos (digits2_pos m)) (Zpos m).
    intros; lia.
  - split; [apply Z.leb_le | apply Z.ltb_lt]; reflexivity.
Qed.

Lemma bounded_inv m e :
  bounded 53 1024 m e = true ->
  -1074 <= e /\ Zpos m < 2 ^ 53 /\ (-1074 < e -> 2 ^ 52 <= Zpos m).
Proof.
  unfold bounded, canonical_mantissa, fexp, emin.
  rewrite andb_true_iff, Z.eqb_eq, Z.leb_le. intros [Hc _].
  pose proof (digits2_pos_bounds m) as [Hlo Hhi].
  set (d := Zpos (digits2_pos m)) in *.
  assert (0 < d) by (unfold d; lia).
  assert (d <= 53 /\ (-1074 < e -> d = 53)) as [Hd Hn] by lia.
  split; [lia|]. split.
  - eapply Z.lt_le_trans; [exact Hhi|]. apply Z.pow_le_mono_r; lia.
  - intros He. rewrite (Hn He) in Hlo. exact Hlo.
Qed.

Lemma scaled_lt_exp m1 e1 m2 e2 :
  bounded 53 1024 m1 e1 = true -> bounded 53 1024 m2 e2 = true ->
  e1 < e2 -> Zpos m1 * 2 ^ (e1 + 1074) < Zpos m2 * 2 ^ (e2 + 1074).
Proof.
  intros H1 H2 He.
  apply bounded_inv in H1 as (Hl1 & Hm1 & _).
  apply bounded_inv in H2 as (Hl2 & _ & Hm2).
  specialize (Hm2 ltac:(lia)).
  assert (0 < 2 ^ (e1 + 1074)) by (apply Z.pow_pos_nonneg; lia).
  assert (2 ^ (e1 + 1074 + 1) <= 2 ^ (e2 + 1074)) by (apply Z.pow_le_mono_r; lia).
  rewrite Z.pow_add_r in * by lia.
  change (2 ^ 53) with (2 ^ 52 * 2) in Hm1.
  change (2 ^ 1) with 2 in *.
  nia.
Qed.

Lemma compare_cont_Eq m1 m2 : Pos.compare_cont Eq m1 m2 = (Zpos m1 ?= Zpos m2).
Proof. reflexivity. Qed.

Lemma SFcompare_finite s1 m1 e1 s2 m2 e2 :
  bounded 53 1024 m1 e1 = true -> bounded 53 1024 m2 e2 = true ->
  SFcompare (S754_finite s1 m1 e1) (S754_finite s2 m2 e2)
  = Some (scaled s1 m1 e1 ?= scaled s2 m2 e2).
Proof.
  intros H1 H2. unfold SFcompare, scaled. f_equal.
  pose proof (bounded_inv _ _ H1) as (Hl1 & _ & _).
  pose proof (bounded_inv _ _ H2) as (Hl2 & _ & _).
  assert (0 < 2 ^ (e1 + 1074)) by (apply Z.pow_pos_nonneg; lia).
  assert (0 < 2 ^ (e2 + 1074)) by (apply Z.pow_pos_nonneg; lia).
  destruct s1, s2.
  - destruct (Z.compare_spec e1 e2) as [->|He|He].
    + rewrite compare_cont_Eq.
      symmetry. destruct (Z.compare_spec (Zpos m1) (Zpos m2)) as [E|E|E]; simpl.
      * injection E as ->. apply Z.compare_refl.
      * apply Z.compare_gt_iff. nia.
      * apply Z.compare_lt_iff. nia.
    + symmetry. apply Z.compare_gt_iff.
      pose proof (scaled_lt_exp _ _ _ _ H1 H2 He). lia.
    + symmetry. apply Z.compare_lt_iff.
      pose proof (scaled_lt_exp _ _ _ _ H2 H1 He). lia.
  - symmetry. apply Z.compare_lt_iff. nia.
  - symmetry. apply Z.compare_gt_iff. nia.
  - destruct (Z.compare_spec e1 e2) as [->|He|He].
    + rewrite compare_cont_Eq.
      symmetry. destruct (Z.compare_spec (Zpos m1) (Zpos m2)) as [E|E|E].
      * injection E as ->. apply Z.compare_refl.
      * apply Z.compare_lt_iff. nia.
      * apply Z.compare_gt_iff. nia.
    + symmetry. apply Z.compare_lt_iff.
      exact (scaled_lt_exp _ _ _ _ H1 H2 He).
    + symmetry. apply Z.compare_gt_iff.
      pose proof (scaled_lt_exp _ _ _ _ H2 H1 He). lia.
Qed.


Lemma SFcompare_scaled x y a b :
  valid x = true -> valid y = true ->
  scaled_of x = Some a -> scaled_of y = Some b ->
  SFcompare x y = Some (a ?= b).
Proof.
  unfold valid.
  destruct x as [sx| | |sx mx ex], y as [sy| | |sy my ey]; simpl;
    intros Hx Hy Ha Hb; try discriminate;
    injection Ha as <-; injection Hb as <-.
  - reflexivity.
  - f_equal. unfold scaled.
    pose proof (bounded_inv _ _ Hy) as (Hl & _ & _).
    assert (0 < 2 ^ (ey + 1074)) by (apply Z.pow_pos_nonneg; lia).
    symmetry. destruct sy; [apply Z.compare_gt_iff | apply Z.compare_lt_iff]; nia.
  - f_equal. unfold scaled.
    pose proof (bounded_inv _ _ Hx) as (Hl & _ & _).
    assert (0 < 2 ^ (ex + 1074)) by (apply Z.pow_pos_nonneg; lia).
    symmetry. destruct sx; [apply Z.compare_lt_iff | apply Z.compare_gt_iff]; nia.
  - by apply SFcompare_finite.
Qed.

Lemma finite_value_scaled s m e :
  -1074 <= e -> (finite_value s m e == scaled s m e # ulp_den)%Q.
Proof.
  intros He. unfold finite_value, scaled, Qeq, ulp_den.
  set (n := if s then Zneg m else Zpos m).
  destruct e as [|p|p]; cbn [Qnum Qden].
  - rewrite Pos2Z.inj_pow. change (0 + 1074) with 1074. lia.
  - rewrite Pos2Z.inj_pow, Z.pow_add_r by lia. lia.
  - rewrite !Pos2Z.inj_pow.
    replace (Zpos 2 ^ Zpos 1074) with (2 ^ (Zneg p + 1074) * 2 ^ Zpos p).
    + lia.
    + rewrite <- Z.pow_add_r by lia. f_equal. lia.
Qed.

Lemma to_xreal_scaled x q :
  valid x = true -> to_xreal x = Some (Finite q) ->
  exists a, scaled_of x = Some a /\ (q == a # ulp_den)%Q.
Proof.
  unfold valid. destruct x as [sx|sx| |sx mx ex]; simpl; intros Hx Hq;
    try discriminate.
  - injection Hq as <-. exists 0. split; [done|]. reflexivity.
  - destruct sx; discriminate.
  - injection Hq as <-. eexists. split; [done|].
    apply finite_value_scaled. by apply bounded_inv in Hx as (? & _).
Qed.

Lemma compare_finite_values x y q r :
  valid x = true -> valid y = true ->
  to_xreal x = Some (Finite q) -> to_xreal y = Some (Finite r) ->
  (lt x y = true <-> (q < r)%Q) /\ (gt x y = true <-> (r < q)%Q).
Proof.
  intros Hx Hy Hq Hr.
  destruct (to_xreal_scaled _ _ Hx Hq) as (a & Ha & Eq).
  destruct (to_xreal_scaled _ _ Hy Hr) as (b & Hb & Er).
  unfold lt, gt, SFltb. rewrite (SFcompare_scaled _ _ _ _ Hx Hy Ha Hb).
  rewrite Eq, Er. unfold Qlt. cbn [Qnum Qden].
  rewrite <- !Z.mul_lt_mono_pos_r by lia.
  destruct (Z.compare_spec a b); split; split; intros; try lia; try discriminate; done.
Qed.


Lemma finite_value_opp m e :
  (finite_value true m e == - finite_value false m e)%Q.
Proof.
  unfold finite_value, Qeq, Qopp. destruct e; cbn [Qnum Qden]; lia.
Qed.

(** A float lies strictly between [-c] and [c], for a positive finite
    constant [c] of value [r], exactly when it is a number in the open
    interval. *)
Lemma open_interval_spec x m e r :
  valid x = true -> bounded 53 1024 m e = true ->
  (finite_value false m e == r)%Q ->
  lt x (S754_finite false m e) && gt x (S754_finite true m e) = true <->
  exists q, to_xreal x = Some (Finite q) /\ (- r < q)%Q /\ (q < r)%Q.
Proof.
  intros Hx Hc Hr.
  assert (forall q, to_xreal x = Some (Finite q) ->
            lt x (S754_finite false m e) && gt x (S754_finite true m e) = true <->
            (- r < q)%Q /\ (q < r)%Q) as Hfin.
  { intros q Hq.
    destruct (compare_finite_values x (S754_finite false m e) q _ Hx Hc Hq eq_refl)
      as [Hlt _].
    destruct (compare_finite_values x (S754_finite true m e) q _ Hx Hc Hq eq_refl)
      as [_ Hgt].
    rewrite andb_true_iff, Hlt, Hgt, finite_value_opp, Hr. tauto. }
  destruct x as [sx|sx| |sx mx ex].
  - rewrite (Hfin _ eq_refl). split.
    + intros [? ?]. by eexists.
    + intros (q & Hq & ? & ?). simpl in Hq. by injection Hq as <-.
  - split.
    + destruct sx; discriminate.
    + intros (q & Hq & _). destruct sx; discriminate.
  - split; [discriminate|]. intros (q & Hq & _). discriminate.
  - rewrite (Hfin _ eq_refl). split.
    + intros [? ?]. by eexists.
    + intros (q & Hq & ? & ?). simpl in Hq. by injection Hq as <-.
Qed.

Lemma one_value : (finite_value false 4503599627370496 (-52) == 1)%Q.
Proof. reflexivity. Qed.

Lemma half_value : (finite_value false 4503599627370496 (-53) == 1 # 2)%Q.
Proof. reflexivity. Qed.

Lemma normal_flag_spec k s :
  valid k = true -> valid s = true ->
  normal_flag k s = true <->
  exists qk qs,
    to_xreal k = Some (Finite qk) /\ to_xreal s = Some (Finite qs) /\
    (- (1) < qk)%Q /\ (qk < 1)%Q /\ (- (1 # 2) < qs)%Q /\ (qs < 1 # 2)%Q.
Proof.
  intros Hk Hs. unfold normal_flag, one, half. cbn [SFopp negb].
  rewrite <- andb_assoc, andb_true_iff.
  rewrite (open_interval_spec k 4503599627370496 (-52) 1 Hk eq_refl one_value).
  rewrite (open_interval_spec s 4503599627370496 (-53) (1 # 2) Hs eq_refl half_value).
  split.
  - intros [(qk & ? & ? & ?) (qs & ? & ? & ?)]. exists qk, qs. tauto.
  - intros (qk & qs & ? & ? & ? & ? & ? & ?). split; eauto.
Qed.

Lemma normal_flag_nan k s :
  k = S754_nan \/ s = S754_nan -> normal_flag k s = false.
Proof.
  intros [-> | ->]; [reflexivity|].
  unfold normal_flag. cbn. by rewrite andb_false_r.
Qed.

End FloatFacts.

(** ** better_describe *)

Lemma bind_Ok {A B} (r : result A) (k : A -> result B) (b : B) :
  bind r k = Ok b -> exists a, r = Ok a /\ k a = Ok b.
Proof. destruct r as [a|e]; simpl; [by exists a|discriminate]. Qed.

Lemma elem_of_map {A B} (f : A -> B) (l : list A) (y : B) :
  y ∈ map f l <-> exists x, y = f x /\ x ∈ l.
Proof. exact (list_elem_of_fmap f l y). Qed.

Lemma has_label_spec df l :
  has_label df l = true <-> exists c, c ∈ df /\ VStr (cname c) = l.
Proof.
  unfold has_label. rewrite bool_decide_eq_true, elem_of_map. split.
  - intros (n & -> & (c & -> & Hc)%elem_of_map). by exists c.
  - intros (c & Hc & <-). exists (cname c). split; [done|].
    apply elem_of_map. by exists c.
Qed.

Lemma forallb_has_label df labels :
  forallb (has_label df) labels = true <->
  Forall (fun l => has_label df l = true) labels.
Proof.
  rewrite forallb_forall, Forall_forall.
  split; intros H l Hl; apply H; by apply list_elem_of_In.
Qed.

(** With unique labels, selecting by the label of a column of the table
    gives that column alone. *)
Lemma filter_by_label df c :
  NoDup (columns_of df) -> c ∈ df ->
  filter (fun c' => VStr (cname c') = VStr (cname c)) df = [c].
Proof.
  intros Hnd Hc. induction df as [|d df IH]; [by apply elem_of_nil in Hc|].
  simpl in Hnd. apply NoDup_cons in Hnd as [Hd Hnd].
  rewrite filter_cons. apply elem_of_cons in Hc as [<-|Hc].
  - case_decide; [|done]. f_equal.
    destruct (filter _ df) as [|c' l] eqn:E; [done|]. exfalso.
    assert (c' ∈ filter (fun c' => VStr (cname c') = VStr (cname c)) df)
      as [[= Hn] Hin]%list_elem_of_filter by (rewrite E; left).
    apply Hd. apply elem_of_map. exists c'. by rewrite Hn.
  - case_decide as Hn; [|by apply IH].
    exfalso. apply Hd. injection Hn as ->. apply elem_of_map. by exists c.
Qed.

Lemma getitem_columns_of df (sub : DataFrame) :
  NoDup (columns_of df) -> (forall c, c ∈ sub -> c ∈ df) ->
  getitem_columns df (map VStr (columns_of sub)) = Ok sub.
Proof.
  intros Hnd Hsub. unfold getitem_columns.
  assert (forallb (has_label df) (map VStr (columns_of sub)) = true) as ->.
  { apply forallb_has_label, Forall_fmap, Forall_fmap, Forall_forall.
    intros c Hc. simpl. apply has_label_spec. exists c. split; [|done].
    by apply Hsub. }
  f_equal. induction sub as [|c sub IH]; [done|]. simpl.
  rewrite filter_by_label; [|done|apply Hsub; left]. simpl. f_equal.
  apply IH. intros c' Hc'. apply Hsub. by right.
Qed.

Lemma constant_ints_present cells z :
  constant_ints cells z -> Forall (fun v => v = VInt z) (present cells).
Proof.
  unfold constant_ints, present.
  induction 1 as [|cell cells [-> | ->] Hcells IH]; simpl;
    [constructor | exact IH | by constructor].
Qed.

Lemma reference_estimators_pandas :
  pandas_estimators reference_skew reference_kurtosis.
Proof.
  unfold reference_skew, reference_kurtosis.
  split; [|split; [|split]].
  - intros cells. split; repeat case_match; reflexivity.
  - intros cells H. by apply Nat.ltb_lt in H as ->.
  - intros cells H. by apply Nat.ltb_lt in H as ->.
  - intros cells z Hc _. apply constant_ints_present in Hc. split.
    + intros H. apply Nat.ltb_ge in H as ->.
      assert (all_equal (present cells) = true) as ->; [|done].
      destruct Hc as [|v l -> Hl]; [done|]. simpl.
      apply forallb_forall. intros w Hw%list_elem_of_In.
      apply bool_decide_eq_true. by eapply Forall_forall in Hl.
    + intros H. by apply Nat.ltb_ge in H as ->.
Qed.

Section DescribeProps.
Variable Stats : Type.
Variable describe : list (option value) -> Stats.
Variable skew kurtosis : list (option value) -> spec_float.
Variable describe_irregular :
  DataFrame -> result (list (pystr * (Stats * spec_float * spec_float))).

(** A regular selection is described column by column. *)
Lemma describe_selection_regular sub :
  sub <> [] -> regular sub = true ->
  describe_selection Stats describe skew kurtosis describe_irregular sub
  = Ok (map (describe_column Stats describe skew kurtosis) sub).
Proof.
  intros Hne Hreg. unfold describe_selection.
  destruct sub; [done|]. by rewrite Hreg.
Qed.

Lemma regular_rows sub out :
  describe_selection Stats describe skew kurtosis describe_irregular sub
  = Ok out ->
  regular sub = true ->
  out = map (describe_column Stats describe skew kurtosis) sub.
Proof.
  intros Hout Hreg. destruct sub as [|c sub]; [discriminate|].
  rewrite describe_selection_regular in Hout by done. by injection Hout.
Qed.

(** Whatever is returned, the flag of a row is the test on the row. *)
Lemma flagged_rows sub out name d :
  describe_selection Stats describe skew kurtosis describe_irregular sub
  = Ok out ->
  (name, d) ∈ out ->
  d_normal d = normal_flag (d_kurtosis d) (d_skew d).
Proof.
  unfold describe_selection. destruct sub as [|c sub]; [discriminate|].
  remember (c :: sub) as sel. destruct (regular sel).
  - intros [= <-] (c' & [= -> ->] & _)%elem_of_map. done.
  - intros (rows & _ & [= <-])%bind_Ok (row & Hrow & _)%elem_of_map.
    destruct row as [n [[st sk] ku]]. by injection Hrow as -> ->.
Qed.

Lemma better_describe_selection t columns out :
  better_describe Stats describe skew kurtosis describe_irregular
    (PyDataFrame t) columns = Ok out ->
  exists labels sub,
    requested_labels t columns = Some labels /\
    getitem_columns t labels = Ok sub /\
    describe_selection Stats describe skew kurtosis describe_irregular sub
    = Ok out.
Proof.
  unfold better_describe, requested_labels.
  destruct columns; simpl; try discriminate;
    intros (sub & Hsub & Hout)%bind_Ok; eauto.
Qed.

Lemma described_rows df columns out name d :
  better_describe Stats describe skew kurtosis describe_irregular df columns
  = Ok out ->
  (name, d) ∈ out ->
  d_normal d = normal_flag (d_kurtosis d) (d_skew d).
Proof.
  intros Hout Hd.
  destruct df; try (by destruct columns).
  apply better_describe_selection in Hout as (labels & sub & _ & _ & Hout).
  by eapply flagged_rows.
Qed.

(** With a column list supplied, an argument of the wrong type is
    rejected with a [TypeError]. *)
Lemma better_describe_supplied_type_error df columns :
  columns <> PyNone ->
  (forall t, df <> PyDataFrame t) \/
  ((forall l, columns <> PyList l) /\ (forall l, columns <> PyIndex l)) ->
  better_describe Stats describe skew kurtosis describe_irregular df columns
  = Raise TypeError.
Proof.
  intros Hc [Hdf | [Hl Hi]].
  - destruct columns; try congruence; destruct df; try reflexivity;
      by edestruct Hdf.
  - destruct columns; try congruence; try (by edestruct Hl);
      try (by edestruct Hi); by destruct df.
Qed.

(** With the column list left out, anything but a DataFrame fails at
    the attribute lookup, before its type is checked. *)
Lemma better_describe_omitted_attribute_error df :
  (forall t, df <> PyDataFrame t) ->
  better_describe Stats describe skew kurtosis describe_irregular df PyNone
  = Raise AttributeError.
Proof. intros Hdf. destruct df; try reflexivity. by edestruct Hdf. Qed.

(** C2, as amended. In every frame that [better_describe] returns, the
    flag of a row is true exactly when its kurtosis is a number
    strictly between -1 and 1 and its skewness a number strictly
    between -0.5 and 0.5; it is false when either is NaN and false on
    each of the four bounds. On a selection of numeric columns under
    distinct labels the rows are those of the selected columns, in
    order, each with the skewness and the kurtosis of its column and
    the flag of these two. There is no separate treatment of
    degenerate columns: with the estimators of pandas a column of
    fewer than four entries has a NaN kurtosis and the flag false,
    and a column of at least four equal entries such as [1, 1, 1, 1]
    has skewness 0 and kurtosis 0 and the flag true. *)
Theorem normal_flag_open_intervals df columns out :
  better_describe Stats describe skew kurtosis describe_irregular df columns
  = Ok out ->
  (forall name d,
      (name, d) ∈ out ->
      (Float.valid (d_kurtosis d) = true -> Float.valid (d_skew d) = true ->
       d_normal d = true <-> in_open_intervals (d_kurtosis d) (d_skew d)) /\
      (d_kurtosis d = S754_nan \/ d_skew d = S754_nan ->
       d_normal d = false) /\
      (d_kurtosis d = Float.one \/ d_kurtosis d = SFopp Float.one \/
       d_skew d = Float.half \/ d_skew d = SFopp Float.half ->
       d_normal d = false)) /\
  (forall t labels sub,
      df = PyDataFrame t ->
      requested_labels t columns = Some labels ->
      getitem_columns t labels = Ok sub ->
      regular sub = true ->
      Forall2
        (fun c r =>
           fst r = cname c /\
           d_skew (snd r) = skew (cells c) /\
           d_kurtosis (snd r) = kurtosis (cells c) /\
           (Float.valid (kurtosis (cells c)) = true ->
            Float.valid (skew (cells c)) = true ->
            d_normal (snd r) = true <->
            in_open_intervals (kurtosis (cells c)) (skew (cells c))) /\
           (pandas_estimators skew kurtosis ->
            ((length (present (cells c)) < 4)%nat ->
             d_normal (snd r) = false) /\
            (forall z,
                constant_ints (cells c) z ->
                (Z.abs z * Z.of_nat (length (present (cells c))) <= 2 ^ 53)%Z ->
                (4 <= length (present (cells c)))%nat ->
                d_normal (snd r) = true)))
        sub out).
Proof.
  intros Hout. split.
  - intros name d Hd. rewrite (described_rows _ _ _ _ _ Hout Hd).
    split; [|split].
    + apply FloatFacts.normal_flag_spec.
    + apply FloatFacts.normal_flag_nan.
    + unfold normal_flag.
      intros [-> | [-> | [-> | ->]]]; cbn; by rewrite ?andb_false_r.
  - intros t labels sub -> Hlabels Hsub Hreg.
    apply better_describe_selection in Hout
      as (labels' & sub' & Hlabels' & Hsub' & Hout).
    rewrite Hlabels in Hlabels'. injection Hlabels' as <-.
    rewrite Hsub in Hsub'. injection Hsub' as <-.
    rewrite (regular_rows _ _ Hout Hreg).
    apply Forall2_fmap_r, Forall_Forall2_diag, Forall_forall.
    intros c _. simpl. split; [done|]. split; [done|]. split; [done|].
    split; [apply FloatFacts.normal_flag_spec|].
    intros (_ & _ & Hfew & Hconst). split.
    + intros Hlt. rewrite (Hfew _ Hlt). reflexivity.
    + intros z Hz Hsmall Hlen.
      destruct (Hconst _ _ Hz Hsmall) as [Hs Hk].
      rewrite Hs, Hk by lia. reflexivity.
Qed.
End DescribeProps.

Lemma normal_flag_open_intervals_witness :
  exists out,
    better_describe unit (fun _ => tt) reference_skew reference_kurtosis
      irregular_raises (PyDataFrame flag_table) PyNone = Ok out /\
    Forall2
      (fun c r =>
         fst r = cname c /\
         d_skew (snd r) = reference_skew (cells c) /\
         d_kurtosis (snd r) = reference_kurtosis (cells c))
      flag_table out /\
    (exists d, (str "x", d) ∈ out /\ d_normal d = true) /\
    (exists d, (str "y", d) ∈ out /\ d_skew d = Float.half /\
               d_normal d = false) /\
    (exists d, (str "z", d) ∈ out /\ d_kurtosis d = S754_nan /\
               d_normal d = false).
Proof.
  set (out := [describe_column unit (fun _ => tt)
                 reference_skew reference_kurtosis ones_column;
               describe_column unit (fun _ => tt)
                 reference_skew reference_kurtosis spread_column;
               describe_column unit (fun _ => tt)
                 reference_skew reference_kurtosis short_column]).
  destruct (normal_flag_open_intervals unit (fun _ => tt)
              reference_skew reference_kurtosis irregular_raises
              (PyDataFrame flag_table) PyNone out eq_refl)
    as [Hrows Hcolumns].
  specialize (Hcolumns flag_table _ flag_table eq_refl eq_refl eq_refl eq_refl).
  exists out. split; [reflexivity|]. split; [|split; [|split]].
  - eapply Forall2_impl; [exact Hcolumns|]. simpl. tauto.
  - eexists. split; [left|].
    apply Forall2_cons_1 in Hcolumns as [(_ & _ & _ & _ & Hpandas) _].
    destruct (Hpandas reference_estimators_pandas) as [_ Hconst].
    apply (Hconst 1%Z); [by repeat constructor | by vm_compute | simpl; lia].
  - eexists. split; [right; left|]. split; [reflexivity|].
    destruct (Hrows (str "y") _ ltac:(right; left)) as (_ & _ & Hbound).
    apply Hbound. right. right. left. reflexivity.
  - eexists. split; [right; right; left|]. split; [reflexivity|].
    destruct (Hrows (str "z") _ ltac:(right; right; left)) as (_ & Hnan & _).
    apply Hnan. left. reflexivity.
Defined.

(** Against C2 as it was stated: with estimators that are those of
    pandas on its column, the table of the one column [1, 1, 1, 1] is
    described with skewness 0, kurtosis 0 and the flag true, not
    false. *)
Lemma ones_column_flagged_normal :
  pandas_estimators reference_skew reference_kurtosis /\
  better_describe unit (fun _ => tt) reference_skew reference_kurtosis
    irregular_raises (PyDataFrame [ones_column]) PyNone
  = Ok [(str "x",
         mkDescription tt (S754_zero false) (S754_zero false) true)].
Proof. split; [exact reference_estimators_pandas | reflexivity]. Qed.

(** C3. The claim fails on the code: a list passed as the table, with
    the column list left out, raises [AttributeError], not [TypeError]. *)
Theorem better_describe_checks_too_late
    (Stats : Type) (describe : list (option value) -> Stats)
    (skew kurtosis : list (option value) -> spec_float)
    (describe_irregular :
       DataFrame ->
       result (list (pystr * (Stats * spec_float * spec_float)))) :
  better_describe Stats describe skew kurtosis describe_irregular
    (PyList [VInt 1; VInt 2; VInt 3]) PyNone
  = Raise AttributeError.
Proof. reflexivity. Qed.

(** ** informative_columns and drop_no_information_columns *)

Local Open Scope nat_scope.

Lemma index_mask_filter (f : nat -> bool) (df : DataFrame) :
  index_mask (columns_of df) (map f (df_nunique df))
  = columns_of (filter (fun c => f (nunique c) = true) df).
Proof.
  induction df as [|c df IH]; [done|].
  rewrite filter_cons.
  destruct (f (nunique c)) eqn:E; case_decide; try congruence;
    simpl; rewrite E; [f_equal|]; exact IH.
Qed.

Lemma filter_ext_in {A} (P Q : A -> Prop)
    `{forall x, Decision (P x)} `{forall x, Decision (Q x)} (l : list A) :
  (forall x, x ∈ l -> P x <-> Q x) -> filter P l = filter Q l.
Proof.
  induction l as [|x l IH]; intros Hl; [done|].
  rewrite !filter_cons, IH.
  - pose proof (Hl x ltac:(left)). repeat case_decide; tauto.
  - intros y Hy. apply Hl. by right.
Qed.

Lemma no_information_filter df :
  no_information df = columns_of (filter (fun c => nunique c = 0) df).
Proof.
  unfold no_information, informative_columns. simpl.
  rewrite index_mask_filter. f_equal. apply filter_ext_in.
  intros c _. apply Nat.eqb_eq.
Qed.

Lemma always_the_same_filter df :
  always_the_same df = columns_of (filter (fun c => nunique c = 1) df).
Proof.
  unfold always_the_same, informative_columns. simpl.
  rewrite index_mask_filter. f_equal. apply filter_ext_in.
  intros c _. apply Nat.eqb_eq.
Qed.

Lemma contains_information_filter df :
  contains_information df = columns_of (filter (fun c => 1 < nunique c) df).
Proof.
  unfold contains_information, informative_columns. simpl.
  rewrite index_mask_filter. f_equal. apply filter_ext_in.
  intros c _. apply Nat.ltb_lt.
Qed.

Lemma elem_of_columns_filter (P : Column -> Prop) `{forall c, Decision (P c)} df n :
  n ∈ columns_of (filter P df) <-> exists c, c ∈ df /\ cname c = n /\ P c.
Proof.
  unfold columns_of. rewrite elem_of_map. split.
  - intros (c & -> & [HP Hc]%list_elem_of_filter). by exists c.
  - intros (c & Hc & <- & HP). exists c. split; [done|].
    by apply list_elem_of_filter.
Qed.

Lemma sublist_columns_filter (P : Column -> Prop) `{forall c, Decision (P c)} df :
  sublist (columns_of (filter P df)) (columns_of df).
Proof. apply (fmap_sublist cname). apply sublist_filter. Qed.

Lemma unique_column df c c' :
  NoDup (columns_of df) -> c ∈ df -> c' ∈ df -> cname c = cname c' -> c = c'.
Proof.
  induction df as [|d df IH]; simpl; intros Hnd Hc Hc' E.
  - by apply elem_of_nil in Hc.
  - apply NoDup_cons in Hnd as [Hd Hnd].
    apply elem_of_cons in Hc as [Hc|Hc]; apply elem_of_cons in Hc' as [Hc'|Hc'].
    + congruence.
    + subst d. exfalso. apply Hd. apply elem_of_map. by exists c'.
    + subst d. exfalso. apply Hd. apply elem_of_map. by exists c.
    + by apply IH.
Qed.

Lemma classes_partition df :
  no_information df ++ always_the_same df ++ contains_information df
  ≡ₚ columns_of df.
Proof.
  rewrite no_information_filter, always_the_same_filter, contains_information_filter.
  induction df as [|c df IH]; [done|].
  rewrite !filter_cons. simpl.
  destruct (nunique c) as [|[|k]] eqn:E; repeat case_decide; try lia; simpl.
  - by rewrite IH.
  - rewrite <- Permutation_middle. by rewrite IH.
  - rewrite app_assoc, <- Permutation_middle, <- app_assoc. by rewrite IH.
Qed.

Lemma length_columns_filter3 (P : Column -> Prop) `{forall c, Decision (P c)} df c0 c1 c2 :
  df ≡ₚ [c0; c1; c2] ->
  length (columns_of (filter P df)) = length (filter P [c0; c1; c2]).
Proof.
  intros Hp. unfold columns_of. rewrite length_map. by rewrite Hp.
Qed.

(** C4. [informative_columns] sorts the column labels by the number of
    distinct values: none, exactly one, more than one. Each list keeps
    the column order, the three together are the column labels, they
    are pairwise disjoint when the labels are unique, and a table with
    one column of each kind gives three lists of length one. *)
Theorem informative_columns_partition df :
  (forall n, n ∈ no_information df <->
             exists c, c ∈ df /\ cname c = n /\ nunique c = 0) /\
  (forall n, n ∈ always_the_same df <->
             exists c, c ∈ df /\ cname c = n /\ nunique c = 1) /\
  (forall n, n ∈ contains_information df <->
             exists c, c ∈ df /\ cname c = n /\ 1 < nunique c) /\
  sublist (no_information df) (columns_of df) /\
  sublist (always_the_same df) (columns_of df) /\
  sublist (contains_information df) (columns_of df) /\
  no_information df ++ always_the_same df ++ contains_information df
    ≡ₚ columns_of df /\
  (NoDup (columns_of df) ->
   disjoint_labels (no_information df) (always_the_same df) /\
   disjoint_labels (no_information df) (contains_information df) /\
   disjoint_labels (always_the_same df) (contains_information df)) /\
  (forall c0 c1 c2,
      df ≡ₚ [c0; c1; c2] ->
      nunique c0 = 0 -> nunique c1 = 1 -> 1 < nunique c2 ->
      length (no_information df) = 1 /\
      length (always_the_same df) = 1 /\
      length (contains_information df) = 1).
Proof.
  pose proof (classes_partition df) as Hperm.
  rewrite no_information_filter, always_the_same_filter,
    contains_information_filter in *.
  repeat split; try (apply elem_of_columns_filter; fail);
    try (apply sublist_columns_filter; fail); try done.
  - intros n (c & Hc & <- & E)%elem_of_columns_filter
             (c' & Hc' & E' & F)%elem_of_columns_filter.
    rewrite (unique_column df c' c) in F by done. lia.
  - intros n (c & Hc & <- & E)%elem_of_columns_filter
             (c' & Hc' & E' & F)%elem_of_columns_filter.
    rewrite (unique_column df c' c) in F by done. lia.
  - intros n (c & Hc & <- & E)%elem_of_columns_filter
             (c' & Hc' & E' & F)%elem_of_columns_filter.
    rewrite (unique_column df c' c) in F by done. lia.
  - rewrite (length_columns_filter3 _ df c0 c1 c2) by done.
    rewrite !filter_cons, filter_nil. repeat case_decide; simpl; lia.
  - rewrite (length_columns_filter3 _ df c0 c1 c2) by done.
    rewrite !filter_cons, filter_nil. repeat case_decide; simpl; lia.
  - rewrite (length_columns_filter3 _ df c0 c1 c2) by done.
    rewrite !filter_cons, filter_nil. repeat case_decide; simpl; lia.
Qed.

(** *** Counting distinct values *)

Lemma present_values c v : v ∈ omap id (cells c) <-> Some v ∈ cells c.
Proof.
  rewrite list_elem_of_omap. split.
  - intros (x & Hx & E). simpl in E. by subst x.
  - intros H. by exists (Some v).
Qed.

Lemma nunique_zero c : nunique c = 0 <-> all_missing c.
Proof.
  unfold nunique, all_missing. split.
  - intros H. apply Forall_forall. intros [v|] Hx; [|done].
    apply present_values, elem_of_remove_dups in Hx.
    apply length_zero_iff_nil in H. rewrite H in Hx.
    by apply elem_of_nil in Hx.
  - intros H. apply length_zero_iff_nil.
    destruct (remove_dups _) as [|v l] eqn:E; [done|].
    assert (v ∈ remove_dups (omap id (cells c))) as Hv by (rewrite E; left).
    apply elem_of_remove_dups, present_values in Hv.
    eapply Forall_forall in H; [|exact Hv]. discriminate.
Qed.

Lemma nunique_one c : nunique c = 1 <-> single_valued c.
Proof.
  unfold nunique, single_valued.
  pose proof (NoDup_remove_dups (omap id (cells c))) as Hnd.
  assert (forall w, w ∈ remove_dups (omap id (cells c)) <-> Some w ∈ cells c) as Hel.
  { intros w. by rewrite elem_of_remove_dups, present_values. }
  destruct (remove_dups (omap id (cells c))) as [|v [|v' l]]; simpl.
  - split; [discriminate|]. intros (v & Hv & _).
    apply Hel in Hv. by apply elem_of_nil in Hv.
  - split; [|done]. intros _. exists v. split.
    + apply Hel. left.
    + intros w Hw. apply Hel in Hw. by apply list_elem_of_singleton in Hw.
  - split; [discriminate|]. intros (u & _ & Hu). exfalso.
    assert (v = u) as -> by (apply Hu, Hel; left).
    assert (v' = u) as -> by (apply Hu, Hel; right; left).
    apply NoDup_cons in Hnd as [Hnd _]. apply Hnd. left.
Qed.

(** C10. Missing entries are not counted: the columns without
    information are exactly the columns whose entries are all missing,
    and a column in which exactly one value occurs, with or without
    missing entries beside it, is listed as always the same (and, the
    labels being unique, not as containing information). *)
Theorem nunique_ignores_missing df :
  no_information df = columns_of (filter all_missing df) /\
  (forall c, c ∈ df -> all_missing c -> cname c ∈ no_information df) /\
  (forall c, c ∈ df -> single_valued c -> cname c ∈ always_the_same df) /\
  (NoDup (columns_of df) ->
   forall c, c ∈ df ->
     (cname c ∈ no_information df <-> all_missing c) /\
     (single_valued c -> cname c ∉ contains_information df)).
Proof.
  rewrite no_information_filter, always_the_same_filter,
    contains_information_filter.
  split; [|split; [|split]].
  - f_equal. apply filter_ext_in. intros c _. apply nunique_zero.
  - intros c Hc Hm. apply elem_of_columns_filter. exists c.
    by rewrite nunique_zero.
  - intros c Hc Hs. apply elem_of_columns_filter. exists c.
    by rewrite nunique_one.
  - intros Hnd c Hc. split; [split|].
    + intros (c' & Hc' & E & Hz)%elem_of_columns_filter.
      rewrite (unique_column df c' c) in Hz by done. by apply nunique_zero.
    + intros Hm. apply elem_of_columns_filter. exists c.
      by rewrite nunique_zero.
    + intros Hs%nunique_one (c' & Hc' & E & Hz)%elem_of_columns_filter.
      rewrite (unique_column df c' c) in Hz by done. lia.
Qed.

(** *** Dropping *)

Lemma has_label_delete df n :
  n ∈ no_information df ++ always_the_same df ->
  has_label df (VStr n) = true.
Proof.
  intros Hn. unfold has_label. apply bool_decide_eq_true.
  apply elem_of_map. exists n. split; [done|].
  pose proof (classes_partition df) as Hp. rewrite <- Hp.
  rewrite app_assoc. apply elem_of_app. by left.
Qed.

Lemma drop_default df :
  drop_no_information_columns df PyNone PyNone
  = ([PyList (map VStr (no_information df ++ always_the_same df))],
     Ok (filter
           (fun c => VStr (cname c)
                       ∉ map VStr (no_information df ++ always_the_same df))
           df)).
Proof.
  unfold drop_no_information_columns, columns_to_delete.
  unfold no_information, always_the_same.
  destruct (informative_columns df) as [[no same] info] eqn:E. simpl.
  unfold df_drop. simpl.
  assert (forallb (has_label df) (map VStr (no ++ same)) = true) as ->; [|done].
  apply forallb_forall. intros l (n & -> & Hn)%list_elem_of_In%elem_of_map.
  apply has_label_delete. unfold no_information, always_the_same.
  by rewrite E.
Qed.

Lemma VStr_elem n l : VStr n ∈ map VStr l <-> n ∈ l.
Proof.
  rewrite elem_of_map. split.
  - by intros (m & [= ->] & Hm).
  - intros H. by exists n.
Qed.

Lemma kept_columns df :
  NoDup (columns_of df) ->
  filter (fun c => VStr (cname c)
                     ∉ map VStr (no_information df ++ always_the_same df)) df
  = filter (fun c => 1 < nunique c) df.
Proof.
  intros Hnd. apply filter_ext_in. intros c Hc.
  rewrite VStr_elem, elem_of_app, no_information_filter, always_the_same_filter.
  rewrite !elem_of_columns_filter. split.
  - intros Hn. destruct (nunique c) as [|[|k]] eqn:E; [| |lia];
      exfalso; apply Hn; [left|right]; by exists c.
  - intros Hlt [(c' & Hc' & E & Hz)|(c' & Hc' & E & Hz)];
      rewrite (unique_column df c' c) in Hz by done; lia.
Qed.

(** C5. Without [keep] and [drop] the function prints and removes the
    columns without information and the constant ones: what is left
    are the columns of [df] under no such label, in order; with unique
    labels these are exactly the columns with more than one distinct
    value, and a table with one column of each kind keeps the varying
    column only. *)
Theorem drop_without_keep_or_drop df :
  exists out,
    drop_no_information_columns df PyNone PyNone
    = ([PyList (map VStr (no_information df ++ always_the_same df))], Ok out) /\
    sublist out df /\
    (forall c, c ∈ out <->
               c ∈ df /\ cname c ∉ no_information df ++ always_the_same df) /\
    (NoDup (columns_of df) ->
     out = filter (fun c => 1 < nunique c) df /\
     columns_of out = contains_information df /\
     forall c0 c1 c2,
       df ≡ₚ [c0; c1; c2] ->
       nunique c0 = 0 -> nunique c1 = 1 -> 1 < nunique c2 ->
       out = [c2]).
Proof.
  eexists. split; [apply drop_default|]. split; [apply sublist_filter|]. split.
  - intros c. rewrite list_elem_of_filter, VStr_elem. tauto.
  - intros Hnd. rewrite (kept_columns df Hnd). split; [done|]. split.
    + by rewrite contains_information_filter.
    + intros c0 c1 c2 Hp H0 H1 H2. apply Permutation_singleton_r.
      rewrite Hp, !filter_cons, filter_nil. repeat case_decide; try lia. done.
Qed.

Lemma three_columns_labels : NoDup (columns_of three_columns).
Proof. by apply (bool_decide_unpack _). Defined.

Lemma informative_columns_partition_witness :
  disjoint_labels (no_information three_columns)
    (always_the_same three_columns) /\
  disjoint_labels (no_information three_columns)
    (contains_information three_columns) /\
  disjoint_labels (always_the_same three_columns)
    (contains_information three_columns).
Proof.
  destruct (informative_columns_partition three_columns)
    as (_ & _ & _ & _ & _ & _ & _ & Hdisjoint & _).
  exact (Hdisjoint three_columns_labels).
Defined.

Lemma nunique_ignores_missing_witness :
  (cname constant_column ∈ no_information three_columns
   <-> all_missing constant_column) /\
  (single_valued constant_column ->
   cname constant_column ∉ contains_information three_columns).
Proof.
  destruct (nunique_ignores_missing three_columns) as (_ & _ & _ & Hunique).
  apply (Hunique three_columns_labels constant_column).
  right. left.
Defined.

Lemma drop_without_keep_or_drop_witness :
  exists out,
    drop_no_information_columns three_columns PyNone PyNone
    = ([PyList [VStr (str "empty"); VStr (str "const")]], Ok out) /\
    out = [varying_column].
Proof.
  destruct (drop_without_keep_or_drop three_columns)
    as (out & Hrun & _ & _ & Hunique).
  destruct (Hunique three_columns_labels) as (_ & _ & Hthree).
  exists out. split; [exact Hrun|].
  apply (Hthree empty_column constant_column varying_column);
    [reflexivity | reflexivity | reflexivity | by apply (bool_decide_unpack _)].
Defined.

(** With a non-empty list as [keep] the subtraction of a set from a list
    is reached, whatever the table, and nothing is printed. *)
Lemma keep_list_raises df x keep :
  drop_no_information_columns df (PyList (x :: keep)) PyNone
  = ([], Raise TypeError).
Proof.
  unfold drop_no_information_columns, columns_to_delete.
  by destruct (informative_columns df) as [[no same] info].
Qed.

(** C1. The claim fails on the code: asked to keep the constant column
    of [three_columns], the function raises [TypeError] and returns no
    table. *)
Theorem drop_with_keep_raises_type_error :
  drop_no_information_columns three_columns
    (PyList [VStr (cname constant_column)]) PyNone
  = ([], Raise TypeError).
Proof. reflexivity. Qed.

(** * Further properties *)

(** ** fix_column_names *)

Lemma length_apply_character_map cm columns :
  length (apply_character_map cm columns) = length columns.
Proof.
  unfold apply_character_map. revert columns.
  induction cm as [|item cm IH]; intros columns; simpl; [done|].
  by rewrite IH, length_map.
Qed.

(** X1. Anything but a DataFrame or an Index is rejected with a
    [TypeError], whatever the character map: a Series, which the error
    message names as accepted, a list, a string. *)
Theorem fix_column_names_rejects_other_objects
    (ul : pystr -> N -> pystr -> pystr) df cm :
  is_frame_or_index df = false ->
  fix_column_names ul df cm = Raise TypeError.
Proof. by destruct df. Qed.

(** X2. For every character map, with patterns of any length, a
    sequence of names gives one name per input name, and every code
    point of the output is in the class [a-zA-Z0-9_]. *)
Theorem fix_column_names_any_map
    (ul : pystr -> N -> pystr -> pystr) cm labels :
  exists out,
    fix_column_names ul (PyIndex labels) cm = Ok out /\
    length out = length labels /\
    Forall (Forall (fun c => Str.in_class c = true)) out.
Proof.
  eexists. split; [reflexivity|]. split.
  - by rewrite length_map, length_apply_character_map, length_map.
  - apply Forall_fmap, Forall_forall. intros s _. simpl.
    apply Forall_forall. intros c Hc.
    by apply list_elem_of_In, filter_In in Hc as [_ Hc].
Qed.

Lemma lstrip_blank w s : blank w -> Str.lstrip (w ++ s) = Str.lstrip s.
Proof.
  induction 1 as [|c w Hc Hw IH]; simpl; [done|]. by rewrite Hc.
Qed.

Lemma lstrip_all_blank w : blank w -> Str.lstrip w = [].
Proof. induction 1 as [|c w Hc Hw IH]; simpl; [done|]. by rewrite Hc. Qed.

Lemma rstrip_blank s w : blank w -> Str.rstrip (s ++ w) = Str.rstrip s.
Proof.
  intros Hw. unfold Str.rstrip. rewrite rev_app_distr.
  rewrite lstrip_blank; [done|]. by apply Forall_rev.
Qed.

Lemma lstrip_app s w :
  blank w ->
  Str.lstrip (s ++ w) = Str.lstrip s ++ w \/
  (Str.lstrip (s ++ w) = [] /\ Str.lstrip s = []).
Proof.
  intros Hw. induction s as [|c s IH]; simpl.
  - right. split; [by apply lstrip_all_blank|done].
  - destruct (Str.isspace c); [exact IH|]. by left.
Qed.

Lemma strip_padding w1 s w2 :
  blank w1 -> blank w2 -> Str.strip (w1 ++ s ++ w2) = Str.strip s.
Proof.
  intros H1 H2. unfold Str.strip. rewrite (lstrip_blank _ _ H1).
  destruct (lstrip_app s w2 H2) as [-> | [-> ->]]; [|done].
  by apply rstrip_blank.
Qed.

(** X4. White space around a name plays no role: padded names give
    the same result as the names themselves, so names that differ in
    padding only collide. *)
Theorem fix_column_names_ignores_padding
    (ul : pystr -> N -> pystr -> pystr) cm w1 w2 labels :
  blank w1 -> blank w2 ->
  fix_column_names ul (PyIndex (map (fun s => w1 ++ s ++ w2) labels)) cm
  = fix_column_names ul (PyIndex labels) cm.
Proof.
  intros H1 H2. unfold fix_column_names. simpl. do 3 f_equal.
  rewrite map_map. apply map_ext. intros s.
  by rewrite strip_padding.
Qed.

(** X5. With the default character map the sequences that
    [fix_column_names] returns unchanged are exactly those whose names
    consist of lower-case letters, digits and underscores. *)
Theorem fix_column_names_fixed_points
    (ul : pystr -> N -> pystr -> pystr) labels :
  lowers_properly ul ->
  fix_column_names ul (PyIndex labels) default_character_map = Ok labels
  <-> Forall clean labels.
Proof.
  intros Hul. split.
  - rewrite fix_column_names_index. intros [= H]. rewrite <- H.
    by apply normalized_clean.
  - apply fix_column_names_clean_fixed.
Qed.

Local Open Scope N_scope.

Lemma lower_from_latin1 ul before s :
  Forall (fun c => c < 256) s ->
  Str.lower_from ul before s = map Str.lower_latin1 s.
Proof.
  intros Hs. revert before.
  induction Hs as [|c r Hc Hr IH]; intros before; simpl; [done|].
  rewrite IH. unfold Str.lower_at.
  by apply N.ltb_lt in Hc as ->.
Qed.

Lemma replace_single_app p rep a b :
  Str.replace [p] rep (a ++ b) = Str.replace [p] rep a ++ Str.replace [p] rep b.
Proof. rewrite !replace_single. apply flat_map_app. Qed.

Lemma default_fold s :
  fold_left (fun s item => Str.replace (fst item) (snd item) s)
    default_character_map s
  = Str.replace [223] (str "ss")
      (Str.replace [252] (str "ue")
         (Str.replace [246] (str "oe")
            (Str.replace [228] (str "ae")
               (Str.replace [32] (str "_") s)))).
Proof. reflexivity. Qed.

Lemma default_map_transliterates s :
  Forall (fun c => Str.is_lower_alnum_ c = true \/
                   c = 32 \/ c = 228 \/ c = 246 \/ c = 252 \/ c = 223) s ->
  Str.replace [223] (str "ss")
    (Str.replace [252] (str "ue")
       (Str.replace [246] (str "oe")
          (Str.replace [228] (str "ae")
             (Str.replace [32] (str "_") s))))
  = flat_map transliterate s.
Proof.
  induction 1 as [|c r Hc Hr IH]; [done|].
  change (c :: r) with ([c] ++ r).
  rewrite !replace_single_app, IH. simpl flat_map. f_equal.
  destruct Hc as [Hc | [-> | [-> | [-> | [-> | ->]]]]]; try reflexivity.
  apply is_lower_alnum_spec in Hc.
  rewrite (replace_single_absent 32 _ [c]) by (repeat constructor; lia).
  rewrite (replace_single_absent 228 _ [c]) by (repeat constructor; lia).
  rewrite (replace_single_absent 246 _ [c]) by (repeat constructor; lia).
  rewrite (replace_single_absent 252 _ [c]) by (repeat constructor; lia).
  rewrite (replace_single_absent 223 _ [c]) by (repeat constructor; lia).
  unfold transliterate.
  repeat match goal with
         | |- context [c =? ?p] => destruct (N.eqb_spec c p); [lia|]
         end.
  done.
Qed.

Lemma transliterate_clean c :
  Str.is_lower_alnum_ c = true \/
  c = 32 \/ c = 228 \/ c = 246 \/ c = 252 \/ c = 223 ->
  clean (transliterate c).
Proof.
  intros [Hc | [-> | [-> | [-> | [-> | ->]]]]];
    try (by repeat constructor).
  unfold transliterate.
  apply is_lower_alnum_spec in Hc as Hc'.
  repeat match goal with
         | |- context [c =? ?p] =>
             destruct (N.eqb_spec c p); [lia|]; simpl
         end.
  by repeat constructor.
Qed.

Lemma apply_character_map_names cm columns :
  apply_character_map cm columns
  = map (fun s => fold_left
                    (fun s item => Str.replace (fst item) (snd item) s) cm s)
      columns.
Proof.
  unfold apply_character_map. revert columns.
  induction cm as [|item cm IH]; intros columns; simpl.
  - by rewrite map_id.
  - by rewrite IH, map_map.
Qed.

Lemma fix_column_names_unfold (ul : pystr -> N -> pystr -> pystr) cm labels :
  fix_column_names ul (PyIndex labels) cm
  = Ok (map Str.remove_outside_class
          (apply_character_map cm
             (map (fun s => Str.lower ul (Str.strip s)) labels))).
Proof. reflexivity. Qed.

(** X3. For every character map the names are normalised one by one:
    the result for a sequence is the sequence of the results for its
    names, no name influences another. *)
Theorem fix_column_names_name_by_name
    (ul : pystr -> N -> pystr -> pystr) cm labels :
  fix_column_names ul (PyIndex labels) cm
  = Ok (map (normalize_name ul cm) labels).
Proof.
  rewrite fix_column_names_unfold. f_equal.
  by rewrite apply_character_map_names, !map_map.
Qed.

(** X6. With the default character map, a name without surrounding
    white space, written in Latin-1 letters a-z and A-Z, digits,
    underscores, spaces and the letters ä ö ü ß in either case, is
    lowered and then transliterated code point by code point: a space
    gives an underscore, ä gives ae, ö oe, ü ue and ß ss. *)
Theorem fix_column_names_transliterates
    (ul : pystr -> N -> pystr -> pystr) labels :
  Forall (fun s => Forall german s /\ Str.strip s = s) labels ->
  fix_column_names ul (PyIndex labels) default_character_map
  = Ok (map (fun s => flat_map transliterate (map Str.lower_latin1 s)) labels).
Proof.
  intros H. rewrite fix_column_names_unfold. f_equal.
  rewrite apply_character_map_names, !map_map.
  apply Forall_fmap_ext_1. eapply Forall_impl; [exact H|].
  intros s [Hs Hstrip]. cbv beta. rewrite Hstrip, default_fold.
  unfold Str.lower.
  rewrite lower_from_latin1
    by (eapply Forall_impl; [exact Hs|]; by intros c [? _]).
  assert (Forall (fun c => Str.is_lower_alnum_ c = true \/
                           c = 32 \/ c = 228 \/ c = 246 \/ c = 252 \/ c = 223)
            (map Str.lower_latin1 s)) as Hl.
  { apply Forall_fmap. eapply Forall_impl; [exact Hs|]. by intros c [_ ?]. }
  rewrite (default_map_transliterates _ Hl).
  apply remove_outside_class_fixed.
  unfold clean. apply Forall_flat_map.
  eapply Forall_impl; [exact Hl|]. intros c Hc. by apply transliterate_clean.
Qed.

Local Open Scope nat_scope.

(** ** recode_to_categorical *)

Lemma dict_get_value d k w : dict_get d k = Some w -> w ∈ dict_values d.
Proof.
  induction d as [|[k' v] d IH]; simpl; [discriminate|].
  case_decide.
  - intros [= ->]. left.
  - intros Hget. right. by apply IH.
Qed.

(** X7. A column that is no Series, or a mapping that is no dict,
    raises [TypeError]. *)
Theorem recode_to_categorical_type_errors column recode o :
  is_series column = false \/ is_dict recode = false ->
  recode_to_categorical column recode o = Raise TypeError.
Proof.
  intros [H | H].
  - by destruct column.
  - destruct column; try reflexivity. by destruct recode.
Qed.

(** X8. A mapping that sends two keys to one label is refused: the
    categories would not be unique and the call raises [ValueError]. *)
Theorem recode_to_categorical_duplicate_labels s d o :
  ~ NoDup (dict_values d) ->
  recode_to_categorical (PySeries s) (PyDict d) o = Raise ValueError.
Proof.
  intros H. unfold recode_to_categorical, pd_Categorical.
  by case_decide.
Qed.

(** X9. With pairwise distinct labels the call succeeds; the categories
    are the labels in mapping order, the flag is the one given (true
    when left out) and the cells keep their positions. A missing cell
    stays missing, a cell holding a key holds the mapped label (looked
    up once, not chained), and a cell holding no key is kept when its
    value is one of the labels and becomes missing otherwise. *)
Theorem recode_to_categorical_cells s d o :
  NoDup (dict_values d) ->
  exists cat,
    recode_to_categorical (PySeries s) (PyDict d) o = Ok cat /\
    categories cat = dict_values d /\
    ordered cat = default true o /\
    length (cat_values cat) = length s /\
    Forall (fun cell => forall v, cell = Some v -> v ∈ dict_values d)
      (cat_values cat) /\
    (forall i, s !! i = Some None -> cat_values cat !! i = Some None) /\
    (forall i v w,
        s !! i = Some (Some v) -> dict_get d v = Some w ->
        cat_values cat !! i = Some (Some w)) /\
    (forall i v,
        s !! i = Some (Some v) -> dict_get d v = None ->
        cat_values cat !! i
        = Some (if bool_decide (v ∈ dict_values d) then Some v else None)).
Proof.
  intros Hnd. unfold recode_to_categorical, pd_Categorical.
  case_decide; [|done]. eexists. split; [reflexivity|]. simpl.
  unfold series_replace. rewrite map_map.
  split; [done|]. split; [done|]. split; [by rewrite length_map|].
  split; [|split; [|split]].
  - apply Forall_fmap, Forall_forall. intros [v|] _; simpl; [|done].
    case_decide; [|done]. by intros ? [= <-].
  - intros i Hi. change (map ?f ?l) with (f <$> l).
    by rewrite list_lookup_fmap, Hi.
  - intros i v w Hi Hw. change (map ?f ?l) with (f <$> l).
    rewrite list_lookup_fmap, Hi. simpl. rewrite Hw. simpl.
    case_decide; [done|]. exfalso. eauto using dict_get_value.
  - intros i v Hi Hw. change (map ?f ?l) with (f <$> l).
    rewrite list_lookup_fmap, Hi. simpl. rewrite Hw. simpl.
    by case_bool_decide; case_decide.
Qed.

(** ** better_describe *)

Lemma regular_sub (t sub : DataFrame) :
  NoDup (columns_of t) -> sublist sub t ->
  Forall (fun c => numeric c = true) sub ->
  regular sub = true.
Proof.
  intros Hnd Hsub Hnum. unfold regular. apply andb_true_iff. split.
  - apply forallb_forall. intros c Hc%list_elem_of_In.
    by eapply Forall_forall in Hnum.
  - apply bool_decide_eq_true.
    apply (sublist_NoDup (columns_of sub) (columns_of t)); [exact Hnd|].
    by apply (fmap_sublist cname).
Qed.

Section DescribeMore.
Variable Stats : Type.
Variable describe : list (option value) -> Stats.
Variable skew kurtosis : list (option value) -> spec_float.
Variable describe_irregular :
  DataFrame -> result (list (pystr * (Stats * spec_float * spec_float))).

(** X10. A requested label that names no column raises [KeyError],
    for a list and for an Index of labels. *)
Theorem better_describe_missing_label t labels l :
  l ∈ labels -> has_label t l = false ->
  better_describe Stats describe skew kurtosis describe_irregular
    (PyDataFrame t) (PyList labels)
  = Raise KeyError /\
  (forall names, labels = map VStr names ->
     better_describe Stats describe skew kurtosis describe_irregular
       (PyDataFrame t) (PyIndex names)
     = Raise KeyError).
Proof.
  intros Hl Hmiss.
  assert (forallb (has_label t) labels = false) as Hall.
  { apply not_true_iff_false. rewrite forallb_has_label, Forall_forall.
    intros H. specialize (H l Hl). congruence. }
  split.
  - unfold better_describe. simpl. unfold getitem_columns. by rewrite Hall.
  - intros names ->. unfold better_describe. simpl.
    unfold getitem_columns. by rewrite Hall.
Qed.

(** X11. With the column list left out, a table with unique labels
    and a numeric column is described by its numeric columns, in table
    order; the other columns are left out. *)
Theorem better_describe_numeric_columns t :
  NoDup (columns_of t) ->
  filter (fun c => numeric c = true) t <> [] ->
  better_describe Stats describe skew kurtosis describe_irregular
    (PyDataFrame t) PyNone
  = Ok (map (describe_column Stats describe skew kurtosis)
          (filter (fun c => numeric c = true) t)).
Proof.
  intros Hnd Hne. unfold better_describe. simpl. unfold select_numeric.
  rewrite (getitem_columns_of t _ Hnd)
    by (by intros c [_ Hc]%list_elem_of_filter).
  simpl. apply describe_selection_regular; [done|].
  apply (regular_sub t); [done|apply sublist_filter|].
  apply Forall_forall. by intros c [Hc _]%list_elem_of_filter.
Qed.

(** X12. With unique labels, a request for distinct labels of numeric
    columns is answered in the order of the request, one described
    column per label. *)
Theorem better_describe_request_order t labels :
  NoDup (columns_of t) -> labels <> [] -> NoDup labels ->
  Forall (fun l => exists c, c ∈ t /\ VStr (cname c) = l /\ numeric c = true)
    labels ->
  exists out,
    better_describe Stats describe skew kurtosis describe_irregular
      (PyDataFrame t) (PyList labels)
    = Ok out /\
    map (fun r => VStr (fst r)) out = labels /\
    Forall (fun r => exists c, c ∈ t /\ numeric c = true /\
                       r = describe_column Stats describe skew kurtosis c) out.
Proof.
  intros Hnd Hne Hdistinct Hall.
  assert (exists sub : DataFrame,
             labels = map VStr (columns_of sub) /\
             Forall (fun c => c ∈ t /\ numeric c = true) sub)
    as (sub & -> & Hsub).
  { clear Hne Hdistinct.
    induction Hall as [|l labels (c & Hc & <- & Hn) Hall IH].
    - by exists [].
    - destruct IH as (sub & -> & Hsub). exists (c :: sub).
      split; [done|]. by constructor. }
  exists (map (describe_column Stats describe skew kurtosis) sub).
  split; [|split].
  - unfold better_describe.
    destruct (map VStr (columns_of sub)) as [|l0 ls] eqn:E; [done|].
    simpl. rewrite <- E, (getitem_columns_of t sub Hnd)
      by (intros c Hc; by eapply Forall_forall in Hsub as [? _]).
    simpl. apply describe_selection_regular.
    + intros ->. discriminate.
    + unfold regular. apply andb_true_iff. split.
      * apply forallb_forall. intros c Hc%list_elem_of_In.
        by eapply Forall_forall in Hsub as [_ ?].
      * apply bool_decide_eq_true. rewrite <- E in Hdistinct.
        by apply (NoDup_fmap_1 VStr).
  - unfold columns_of. rewrite !map_map. by apply map_ext.
  - apply Forall_fmap. eapply Forall_impl; [exact Hsub|].
    intros c [Hc Hn]. simpl. by exists c.
Qed.

(** X19. An empty selection is an error, not an empty result: a table
    without numeric columns with the column list left out, and an
    empty list or Index of labels, raise [ValueError]. *)
Theorem better_describe_empty_selection t :
  (filter (fun c => numeric c = true) t = [] ->
   better_describe Stats describe skew kurtosis describe_irregular
     (PyDataFrame t) PyNone
   = Raise ValueError) /\
  better_describe Stats describe skew kurtosis describe_irregular
    (PyDataFrame t) (PyList [])
  = Raise ValueError /\
  better_describe Stats describe skew kurtosis describe_irregular
    (PyDataFrame t) (PyIndex [])
  = Raise ValueError.
Proof.
  split; [|by split].
  intros Hnone. unfold better_describe. simpl. unfold select_numeric.
  by rewrite Hnone.
Qed.

End DescribeMore.

(** ** informative_columns and drop_no_information_columns *)

Lemma nunique_le_length c : nunique c <= length (cells c).
Proof.
  unfold nunique. transitivity (length (omap id (cells c))).
  - induction (omap id (cells c)) as [|v l IH]; simpl; [done|].
    destruct (decide_rel _ _ _); simpl; lia.
  - induction (cells c) as [|[v|] l IH]; simpl;
      [done | apply le_n_S, IH | apply le_S, IH].
Qed.

Lemma nunique_same_present_values c c' :
  same_present_values c c' -> nunique c = nunique c'.
Proof.
  intros [_ Hv]. unfold nunique. apply Permutation_length.
  apply NoDup_Permutation; [apply NoDup_remove_dups..|].
  intros v. by rewrite !elem_of_remove_dups, !present_values.
Qed.

Lemma columns_filter_same (f : nat -> Prop) `{forall n, Decision (f n)}
    (df df' : DataFrame) :
  Forall2 same_present_values df df' ->
  columns_of (filter (fun c => f (nunique c)) df)
  = columns_of (filter (fun c => f (nunique c)) df').
Proof.
  induction 1 as [|c c' df df' Hc Hdf IH]; [done|].
  rewrite !filter_cons, <- (nunique_same_present_values c c' Hc).
  destruct Hc as [Hn _]. case_decide; simpl; by rewrite ?Hn, IH.
Qed.

(** X13. The three lists depend only on the labels and on the set of
    values present in each column: reordering rows, repeating them or
    adding missing entries changes nothing. *)
Theorem informative_columns_present_values df df' :
  Forall2 same_present_values df df' ->
  informative_columns df = informative_columns df'.
Proof.
  intros H.
  pose proof (no_information_filter df) as H1.
  pose proof (always_the_same_filter df) as H2.
  pose proof (contains_information_filter df) as H3.
  pose proof (no_information_filter df') as H1'.
  pose proof (always_the_same_filter df') as H2'.
  pose proof (contains_information_filter df') as H3'.
  unfold no_information, always_the_same, contains_information in *.
  destruct (informative_columns df) as [[a b] c].
  destruct (informative_columns df') as [[a' b'] c']. simpl in *.
  rewrite H1, H2, H3, H1', H2', H3'.
  f_equal; [f_equal|].
  - exact (columns_filter_same (fun n => n = 0) df df' H).
  - exact (columns_filter_same (fun n => n = 1) df df' H).
  - exact (columns_filter_same (fun n => 1 < n) df df' H).
Qed.

(** ** More on drop_no_information_columns *)

(** A column that survives the default removal varies. *)
Lemma kept_column_varies df c :
  c ∈ df -> cname c ∉ no_information df ++ always_the_same df ->
  1 < nunique c.
Proof.
  intros Hc Hn. rewrite elem_of_app in Hn.
  rewrite no_information_filter, always_the_same_filter in Hn.
  rewrite !elem_of_columns_filter in Hn.
  destruct (nunique c) as [|[|k]] eqn:E; [| |lia];
    exfalso; apply Hn; [left|right]; by exists c.
Qed.

Lemma filter_none {A} (P : A -> Prop) `{forall x, Decision (P x)} (l : list A) :
  (forall x, x ∈ l -> ~ P x) -> filter P l = [].
Proof.
  induction l as [|x l IH]; intros Hl; [done|].
  rewrite filter_cons, IH.
  - case_decide; [|done]. exfalso. by apply (Hl x); [left|].
  - intros y Hy. apply Hl. by right.
Qed.

Lemma filter_all {A} (P : A -> Prop) `{forall x, Decision (P x)} (l : list A) :
  (forall x, x ∈ l -> P x) -> filter P l = l.
Proof.
  induction l as [|x l IH]; intros Hl; [done|].
  rewrite filter_cons, IH.
  - case_decide as Hx; [done|]. exfalso. by apply Hx, Hl; left.
  - intros y Hy. apply Hl. by right.
Qed.

(** X14. In a table of at most one row no column contains information,
    and without [keep] and [drop] every column is removed. *)
Theorem drop_single_row_table df :
  Forall (fun c => length (cells c) <= 1) df ->
  contains_information df = [] /\
  drop_no_information_columns df PyNone PyNone
  = ([PyList (map VStr (no_information df ++ always_the_same df))], Ok []).
Proof.
  intros Hrow.
  assert (forall c, c ∈ df -> ~ 1 < nunique c) as Hle.
  { intros c Hc. eapply Forall_forall in Hrow; [|exact Hc].
    pose proof (nunique_le_length c). lia. }
  split.
  - rewrite contains_information_filter. by rewrite filter_none.
  - rewrite drop_default. do 2 f_equal. apply filter_none.
    intros c Hc Hn. apply (Hle c Hc).
    apply (kept_column_varies df c Hc). by rewrite <- VStr_elem.
Qed.

(** X15. Dropping is idempotent: a second call on the returned table
    finds nothing to remove and returns it unchanged. *)
Theorem drop_idempotent df :
  exists out,
    drop_no_information_columns df PyNone PyNone
    = ([PyList (map VStr (no_information df ++ always_the_same df))], Ok out) /\
    drop_no_information_columns out PyNone PyNone = ([PyList []], Ok out).
Proof.
  eexists. split; [apply drop_default|].
  set (out := filter _ df).
  assert (forall c, c ∈ out -> 1 < nunique c) as Hvar.
  { intros c [Hn Hc]%list_elem_of_filter.
    apply (kept_column_varies df c Hc). by rewrite <- VStr_elem. }
  rewrite drop_default.
  assert (no_information out = []) as ->.
  { rewrite no_information_filter, filter_none; [done|].
    intros c Hc%Hvar. lia. }
  assert (always_the_same out = []) as ->.
  { rewrite always_the_same_filter, filter_none; [done|].
    intros c Hc%Hvar. lia. }
  simpl. do 2 f_equal. apply filter_all. intros c _. apply not_elem_of_nil.
Qed.

Lemma delete_with_drop_list df keep x d :
  ignored_argument keep = true ->
  columns_to_delete df keep (PyList (x :: d))
  = Ok (PyList (map VStr (no_information df ++ always_the_same df) ++ x :: d)).
Proof.
  intros Hk. unfold columns_to_delete, no_information, always_the_same.
  destruct (informative_columns df) as [[no same] info]. simpl.
  destruct keep as [| | | [|] | | | | | |]; try discriminate; simpl;
    by rewrite ?andb_false_r.
Qed.

(** X16. With a non-empty list as [drop] and no [keep]: if every label
    of the list names a column, the notice lists the uninformative
    columns followed by the list, and the returned table keeps, in
    order, the columns under none of these labels, all of which vary;
    if a label names no column, the notice is printed and [KeyError]
    is raised. *)
Theorem drop_with_drop_list df x d :
  let labels :=
    map VStr (no_information df ++ always_the_same df) ++ x :: d in
  (Forall (fun l => has_label df l = true) (x :: d) ->
   exists out,
     drop_no_information_columns df PyNone (PyList (x :: d))
     = ([PyList labels], Ok out) /\
     sublist out df /\
     (forall c, c ∈ out <-> c ∈ df /\ VStr (cname c) ∉ labels) /\
     (forall c, c ∈ out -> 1 < nunique c /\ VStr (cname c) ∉ x :: d)) /\
  (~ Forall (fun l => has_label df l = true) (x :: d) ->
   drop_no_information_columns df PyNone (PyList (x :: d))
   = ([PyList labels], Raise KeyError)).
Proof.
  intros labels. unfold drop_no_information_columns.
  rewrite (delete_with_drop_list df PyNone x d eq_refl). fold labels.
  unfold df_drop. simpl bind.
  split.
  - intros Hd.
    assert (forallb (has_label df) labels = true) as ->.
    { apply forallb_has_label, Forall_app. split; [|done].
      apply Forall_fmap, Forall_forall. intros n Hn. simpl.
      by apply has_label_delete. }
    eexists. split; [reflexivity|]. split; [apply sublist_filter|].
    split.
    + intros c. rewrite list_elem_of_filter. tauto.
    + intros c [Hn Hc]%list_elem_of_filter. unfold labels in Hn.
      rewrite elem_of_app, VStr_elem in Hn. split; [|tauto].
      apply (kept_column_varies df c Hc). tauto.
  - intros Hd.
    assert (forallb (has_label df) labels = false) as ->; [|done].
    apply not_true_iff_false. rewrite forallb_has_label. intros Hall.
    apply Hd. by apply Forall_app in Hall as [_ ?].
Qed.

(** X17. A [keep] or [drop] that is falsy or not a list (an empty list,
    a tuple, a set, a string, a dict, a number) is ignored without a
    word: the call behaves as if it had been left out. *)
Theorem drop_ignores_other_arguments df keep drop :
  ignored_argument keep = true -> ignored_argument drop = true ->
  drop_no_information_columns df keep drop
  = drop_no_information_columns df PyNone PyNone.
Proof.
  intros Hk Hd. unfold drop_no_information_columns, columns_to_delete.
  destruct (informative_columns df) as [[no same] info].
  destruct keep as [| | | [|] | | | | | |]; try discriminate;
    destruct drop as [| | | [|] | | | | | |]; try discriminate; simpl;
      by rewrite ?andb_false_r.
Qed.

(** X18. An Index, a Series or a DataFrame as [keep] or [drop] is not
    ignored: its truth value is asked for, [ValueError] is raised and
    nothing is printed. *)
Theorem drop_refuses_pandas_containers df o :
  is_pandas_container o = true ->
  (forall keep, drop_no_information_columns df keep o
                = ([], Raise ValueError)) /\
  (forall drop, ignored_argument drop = true ->
                drop_no_information_columns df o drop
                = ([], Raise ValueError)) /\
  (forall x d, drop_no_information_columns df o (PyList (x :: d))
               = ([], Raise ValueError)).
Proof.
  intros Ho. unfold drop_no_information_columns, columns_to_delete.
  destruct (informative_columns df) as [[no same] info].
  split; [|split].
  - intros keep. by destruct o.
  - intros drop Hd.
    destruct o; try discriminate;
      destruct drop as [| | | [|] | | | | | |]; try discriminate; simpl;
        by rewrite ?andb_false_r.
  - intros x d. by destruct o.
Qed.

(** ** Instances *)

Lemma fix_column_names_rejects_other_objects_witness :
  fix_column_names identity_lower (PySeries [Some (VStr (str "a"))])
    default_character_map
  = Raise TypeError.
Proof.
  apply (fix_column_names_rejects_other_objects identity_lower
           (PySeries [Some (VStr (str "a"))]) default_character_map).
  reflexivity.
Defined.

Lemma fix_column_names_ignores_padding_witness :
  fix_column_names identity_lower
    (PyIndex (map (fun s => [32; 9]%N ++ s ++ [10]%N) [str "A b"; str "c"]))
    default_character_map
  = fix_column_names identity_lower (PyIndex [str "A b"; str "c"])
      default_character_map.
Proof.
  apply (fix_column_names_ignores_padding identity_lower
           default_character_map [32; 9]%N [10]%N [str "A b"; str "c"]);
    by repeat constructor.
Defined.

Lemma fix_column_names_fixed_points_witness :
  fix_column_names identity_lower (PyIndex [str "a_b"; str "x1"])
    default_character_map = Ok [str "a_b"; str "x1"]
  <-> Forall clean [str "a_b"; str "x1"].
Proof.
  apply (fix_column_names_fixed_points identity_lower [str "a_b"; str "x1"]).
  exact identity_lower_properly.
Defined.

Lemma fix_column_names_transliterates_witness :
  fix_column_names identity_lower
    (PyIndex [str "Stra" ++ [223]%N ++ str "e Nr"; [220]%N ++ str "ber uns"])
    default_character_map
  = Ok [str "strasse_nr"; str "ueber_uns"].
Proof.
  apply (fix_column_names_transliterates identity_lower
           [str "Stra" ++ [223]%N ++ str "e Nr"; [220]%N ++ str "ber uns"]).
  assert (forall c, (c <? 256)%N = true ->
            (Str.is_lower_alnum_ (Str.lower_latin1 c)
             || (Str.lower_latin1 c =? 32)%N || (Str.lower_latin1 c =? 228)%N
             || (Str.lower_latin1 c =? 246)%N || (Str.lower_latin1 c =? 252)%N
             || (Str.lower_latin1 c =? 223)%N) = true ->
            german c) as Hgerman.
  { intros c Hc Hl. split; [by apply N.ltb_lt|]. simpl.
    rewrite !orb_true_iff, !N.eqb_eq in Hl. tauto. }
  repeat (apply List.Forall_cons || apply List.Forall_nil || split);
    try reflexivity; by apply Hgerman.
Defined.

Lemma recode_to_categorical_type_errors_witness :
  recode_to_categorical (PyList [VInt 1]) (PyDict []) None = Raise TypeError.
Proof.
  apply (recode_to_categorical_type_errors (PyList [VInt 1]) (PyDict []) None).
  left. reflexivity.
Defined.

Lemma recode_to_categorical_duplicate_labels_witness :
  recode_to_categorical (PySeries [Some (VInt 1)])
    (PyDict [(VInt 1, VStr (str "a")); (VInt 2, VStr (str "a"))]) None
  = Raise ValueError.
Proof.
  apply (recode_to_categorical_duplicate_labels [Some (VInt 1)]
           [(VInt 1, VStr (str "a")); (VInt 2, VStr (str "a"))] None).
  by apply (bool_decide_unpack _).
Defined.

Lemma recode_to_categorical_cells_witness :
  exists cat,
    recode_to_categorical
      (PySeries [Some (VInt 1); None; Some (VInt 2); Some (VInt 9)])
      (PyDict [(VInt 1, VInt 2); (VInt 2, VInt 1)]) (Some false)
    = Ok cat /\
    cat_values cat !! 0 = Some (Some (VInt 2)) /\
    cat_values cat !! 1 = Some None /\
    cat_values cat !! 3 = Some None.
Proof.
  destruct (recode_to_categorical_cells
              [Some (VInt 1); None; Some (VInt 2); Some (VInt 9)]
              [(VInt 1, VInt 2); (VInt 2, VInt 1)] (Some false))
    as (cat & Hrun & _ & _ & _ & _ & Hmissing & Hkey & Hother).
  - by apply (bool_decide_unpack _).
  - exists cat. split; [exact Hrun|]. split; [|split].
    + by apply (Hkey 0 (VInt 1) (VInt 2)).
    + by apply (Hmissing 1).
    + by apply (Hother 3 (VInt 9)).
Defined.

Lemma mixed_columns_labels : NoDup (columns_of mixed_columns).
Proof. by apply (bool_decide_unpack _). Defined.

Lemma better_describe_missing_label_witness :
  better_describe unit (fun _ => tt) (fun _ => S754_nan) (fun _ => S754_nan)
    irregular_raises (PyDataFrame mixed_columns) (PyList [VStr (str "n"); VStr (str "zz")])
  = Raise KeyError.
Proof.
  apply (better_describe_missing_label unit (fun _ => tt)
           (fun _ => S754_nan) (fun _ => S754_nan) irregular_raises
           mixed_columns [VStr (str "n"); VStr (str "zz")] (VStr (str "zz"))).
  - right. left.
  - reflexivity.
Defined.

Lemma better_describe_numeric_columns_witness :
  map fst
    (default []
       (match better_describe unit (fun _ => tt)
                (fun _ => S754_nan) (fun _ => S754_nan)
                irregular_raises (PyDataFrame mixed_columns) PyNone with
        | Ok out => Some out
        | Raise _ => None
        end))
  = [str "n"; str "m"].
Proof.
  rewrite (better_describe_numeric_columns unit (fun _ => tt)
             (fun _ => S754_nan) (fun _ => S754_nan) irregular_raises
             mixed_columns).
  - reflexivity.
  - exact mixed_columns_labels.
  - discriminate.
Defined.

Lemma better_describe_request_order_witness :
  exists out,
    better_describe unit (fun _ => tt) (fun _ => S754_nan) (fun _ => S754_nan)
      irregular_raises (PyDataFrame mixed_columns) (PyList [VStr (str "m"); VStr (str "n")])
    = Ok out /\
    map (fun r => VStr (fst r)) out = [VStr (str "m"); VStr (str "n")].
Proof.
  destruct (better_describe_request_order unit (fun _ => tt)
              (fun _ => S754_nan) (fun _ => S754_nan) irregular_raises
              mixed_columns [VStr (str "m"); VStr (str "n")])
    as (out & Hrun & Horder & _).
  - exact mixed_columns_labels.
  - discriminate.
  - by apply (bool_decide_unpack _).
  - repeat constructor.
    + eexists. split; [right; right; left|]. by split.
    + eexists. split; [left|]. by split.
  - by exists out.
Defined.

Lemma better_describe_empty_selection_witness :
  better_describe unit (fun _ => tt) (fun _ => S754_nan) (fun _ => S754_nan)
    irregular_raises
    (PyDataFrame [mkColumn (str "t") false [Some (VStr (str "u"))]]) PyNone
  = Raise ValueError.
Proof.
  apply (proj1 (better_describe_empty_selection unit (fun _ => tt)
                  (fun _ => S754_nan) (fun _ => S754_nan) irregular_raises
                  [mkColumn (str "t") false [Some (VStr (str "u"))]])).
  reflexivity.
Defined.

Lemma informative_columns_present_values_witness :
  informative_columns three_columns
  = informative_columns three_columns_reordered.
Proof.
  apply (informative_columns_present_values
           three_columns three_columns_reordered).
  unfold three_columns, three_columns_reordered.
  repeat (apply List.Forall2_cons); [| | |apply List.Forall2_nil];
    (split; [reflexivity|]); simpl; intros v;
    rewrite ?elem_of_cons, ?elem_of_nil; naive_solver.
Defined.

Lemma drop_single_row_table_witness :
  contains_information one_row = [] /\
  drop_no_information_columns one_row PyNone PyNone
  = ([PyList [VStr (str "b"); VStr (str "a")]], Ok []).
Proof.
  apply (drop_single_row_table one_row). by repeat constructor.
Defined.

Lemma drop_with_drop_list_witness :
  (exists out,
      drop_no_information_columns three_columns PyNone
        (PyList [VStr (str "vary")])
      = ([PyList [VStr (str "empty"); VStr (str "const"); VStr (str "vary")]],
         Ok out)) /\
  drop_no_information_columns three_columns PyNone (PyList [VStr (str "zz")])
  = ([PyList [VStr (str "empty"); VStr (str "const"); VStr (str "zz")]],
     Raise KeyError).
Proof.
  split.
  - destruct (proj1 (drop_with_drop_list three_columns (VStr (str "vary")) []))
      as (out & Hrun & _).
    + by repeat constructor.
    + by exists out.
  - apply (proj2 (drop_with_drop_list three_columns (VStr (str "zz")) [])).
    intros H. by inversion H.
Defined.

Lemma drop_ignores_other_arguments_witness :
  drop_no_information_columns three_columns
    (PyTuple [VStr (str "const")]) (PyStr (str "vary"))
  = drop_no_information_columns three_columns PyNone PyNone.
Proof.
  by apply (drop_ignores_other_arguments three_columns
              (PyTuple [VStr (str "const")]) (PyStr (str "vary"))).
Defined.

Lemma drop_refuses_pandas_containers_witness :
  drop_no_information_columns three_columns PyNone (PyIndex [str "vary"])
  = ([], Raise ValueError).
Proof.
  by apply (proj1 (drop_refuses_pandas_containers three_columns
                     (PyIndex [str "vary"]) eq_refl)).
Defined.
